(** * latexmerger (texpack): recursive expansion of LaTeX inclusion directives

    A shallow embedding of [mergelatex.py] and the properties of its
    directive matchers, extractors, recursive expander and driver.

    Text is modelled as [string] over [ascii]: every character the program
    inspects (backslash, braces, slash, dot, newline) is ASCII, and in UTF-8
    no multi-byte sequence contains an ASCII byte, so the byte-level
    operations below agree with Python's code-point-level ones. *)

From Stdlib Require Import String Ascii List Bool Arith ZArith Lia.
Import ListNotations.
Open Scope string_scope.
Open Scope list_scope.

(** ** Python's [str] operations used by the program *)

Module Str.

Definition nl : ascii := "010"%char.

(** [s.startswith(pre)] *)
Definition startswith (s pre : string) : bool := String.prefix pre s.

(** [s.endswith(suf)]: some suffix of [s] is [suf]. *)
Fixpoint endswith (s suf : string) : bool :=
  if (s =? suf)%string then true
  else match s with
       | EmptyString => false
       | String _ s' => endswith s' suf
       end.

(** [s.split(sep)] for a one-character separator: never the empty list. *)
Fixpoint split (sep : ascii) (s : string) : list string :=
  match s with
  | EmptyString => [EmptyString]
  | String c s' =>
      if (c =? sep)%char then EmptyString :: split sep s'
      else match split sep s' with
           | [] => [String c EmptyString]
           | l :: ls => String c l :: ls
           end
  end.

(** [sep.join(ls)] *)
Definition join (sep : string) (ls : list string) : string :=
  String.concat sep ls.

(** [s * n] *)
Fixpoint times (s : string) (n : nat) : string :=
  match n with
  | O => EmptyString
  | S n' => (s ++ times s n')%string
  end.

(** Membership of a character in a string. *)
Fixpoint mem (c : ascii) (s : string) : bool :=
  match s with
  | EmptyString => false
  | String a s' => (a =? c)%char || mem c s'
  end.

End Str.

(** ** The fragment of Python's [re] the two patterns use

    A pattern is a sequence of literal characters with one capturing group
    (dot star): the dot matches every character but the newline, the star
    is greedy and backtracks.  [match_] is [Pattern.match]: anchored at the
    first character of the subject, not at its end; it returns group 1. *)

Module re.

Inductive atom : Type :=
| Lit (c : ascii)
| GroupDotStar.

Definition pattern := list atom.

Fixpoint lit (s : string) : pattern :=
  match s with
  | EmptyString => []
  | String c s' => Lit c :: lit s'
  end.

Fixpoint match_ (p : pattern) (s : string) : option string :=
  match p with
  | [] => Some EmptyString
  | Lit c :: p' =>
      match s with
      | String a s' => if (a =? c)%char then match_ p' s' else None
      | EmptyString => None
      end
  | GroupDotStar :: p' =>
      (fix star (s : string) : option string :=
         let stop :=
           match match_ p' s with
           | Some _ => Some EmptyString
           | None => None
           end in
         match s with
         | String a s' =>
             if (a =? Str.nl)%char then stop
             else match star s' with
                  | Some g => Some (String a g)
                  | None => stop
                  end
         | EmptyString => stop
         end) s
  end.

End re.

(** ** [pathlib.PurePosixPath], as far as the program uses it

    A path is its root ([""], ["/"] or ["//"]) and its components; parsing
    drops empty and ["."] components and keeps [".."].  All operations are
    lexical, as in [pathlib]. *)

Record Path : Type := mkPath { anchor : string; tail : list string }.

Module pathlib.

Definition sep : ascii := "/"%char.

(** [posixpath.splitroot] *)
Definition splitroot (p : string) : string * string :=
  match p with
  | String c0 r0 =>
      if (c0 =? sep)%char then
        match r0 with
        | String c1 r1 =>
            if (c1 =? sep)%char then
              match r1 with
              | String c2 _ =>
                  if (c2 =? sep)%char then ("/", r0) else ("//", r1)
              | EmptyString => ("//", r1)
              end
            else ("/", r0)
        | EmptyString => ("/", r0)
        end
      else (EmptyString, p)
  | EmptyString => (EmptyString, p)
  end.

Definition keep (x : string) : bool :=
  negb (x =? "")%string && negb (x =? ".")%string.

(** [Path(s)] *)
Definition of_string (s : string) : Path :=
  let (a, rel) := splitroot s in
  mkPath a (filter keep (Str.split sep rel)).

(** [p / key] *)
Definition truediv (p : Path) (key : string) : Path :=
  let q := of_string key in
  if (anchor q =? "")%string then mkPath (anchor p) (tail p ++ tail q)
  else q.

(** [p.parent] *)
Definition parent (p : Path) : Path :=
  match tail p with
  | [] => p
  | _ :: _ => mkPath (anchor p) (removelast (tail p))
  end.

(** [p.name] *)
Definition name (p : Path) : string := last (tail p) EmptyString.

(** [str(p)] *)
Definition str (p : Path) : string :=
  match anchor p, tail p with
  | EmptyString, [] => "."
  | a, t => (a ++ Str.join "/" t)%string
  end.

(** [xs] minus its prefix [pre], when [pre] is a prefix of [xs]. *)
Fixpoint strip (pre xs : list string) : option (list string) :=
  match pre, xs with
  | [], _ => Some xs
  | a :: pre', b :: xs' =>
      if (a =? b)%string then strip pre' xs' else None
  | _ :: _, [] => None
  end.

(** [p.relative_to(other)]: [None] stands for the [ValueError]. *)
Definition relative_to (p other : Path) : option Path :=
  if (anchor p =? anchor other)%string then
    match strip (tail other) (tail p) with
    | Some rest => Some (mkPath EmptyString rest)
    | None => None
    end
  else None.

Definition eqb (p q : Path) : bool :=
  (anchor p =? anchor q)%string
  && if list_eq_dec string_dec (tail p) (tail q) then true else false.

End pathlib.

Notation "p // s" := (pathlib.truediv p s) (at level 40, left associativity).

(** ** Exceptions, results and the file system *)

Inductive error : Type :=
| ReadError (f : Path)          (* [Path.read_text] failed: missing, unreadable, a directory, undecodable *)
| ValueError (p other : Path)   (* [p.relative_to(other)] failed *)
| AttributeError                (* [.group] taken of a failed match *)
| RecursionError                (* the call stack is exhausted *)
| EOFError                      (* [input] found no line *)
| WriteError (f : Path).        (* [Path.write_text] failed *)

Inductive result (A : Type) : Type :=
| Ok (a : A)
| Raise (e : error).

Arguments Ok {A} a.
Arguments Raise {A} e.

Definition bind {A B : Type} (r : result A) (k : A -> result B) : result B :=
  match r with
  | Ok a => k a
  | Raise e => Raise e
  end.

Notation "x <- e ;; k" := (bind e (fun x => k))
  (at level 61, e at next level, right associativity).

Inductive node : Type :=
| File (text : string)
| Dir.

(** The files of a run, by lexical path. *)
Definition filesystem := Path -> option node.

Definition exists_ (fs : filesystem) (f : Path) : bool :=
  match fs f with
  | Some _ => true
  | None => false
  end.

Definition read_text (fs : filesystem) (f : Path) : result string :=
  match fs f with
  | Some (File text) => Ok text
  | _ => Raise (ReadError f)
  end.

(** [f.write_text(text)] as far as the files of the run decide it: it
    fails on a directory and otherwise replaces the text under [f].  What
    else the system may do with a write (refuse it for want of the
    directory or of permission, fail on text the locale cannot encode
    after having emptied the file, change the same file under another
    name) is not modelled: the theorems about [main] speak of runs that
    end before the write and of runs that return. *)
Definition write_text (fs : filesystem) (f : Path) (text : string)
  : result filesystem :=
  match fs f with
  | Some Dir => Raise (WriteError f)
  | _ => Ok (fun g => if pathlib.eqb g f then Some (File text) else fs g)
  end.

(** ** The extractors *)

Record BodyExtractor : Type := mkBodyExtractor {
  matches : string -> bool;
  extract : filesystem -> Path -> Path -> string -> result (list string * Path)
}.

Definition group1 (m : option string) : result string :=
  match m with
  | Some g => Ok g
  | None => Raise AttributeError
  end.

Definition truthy (m : option string) : bool :=
  match m with
  | Some _ => true
  | None => false
  end.

Module InputExtractor.

Definition pat : re.pattern :=
  re.lit "\input{" ++ [re.GroupDotStar] ++ re.lit "}".

Definition matches (line : string) : bool := truthy (re.match_ pat line).

Definition extract (fs : filesystem) (parent root : Path) (line : string)
  : result (list string * Path) :=
  let mat := re.match_ pat line in
  stem <- group1 mat ;;
  let target := root // (stem ++ ".tex")%string in
  body <- read_text fs target ;;
  let body_lines := Str.split Str.nl body in
  Ok (body_lines, target).

Definition self : BodyExtractor :=
  mkBodyExtractor matches extract.

End InputExtractor.

Module SubfileExtractor.

Definition pat : re.pattern :=
  re.lit "\subfile{" ++ [re.GroupDotStar] ++ re.lit "}".

Definition matches (line : string) : bool := truthy (re.match_ pat line).

(** One turn of the scanning loop on the state [(in_body, body_lines)]. *)
Definition scan_step (st : bool * list string) (line : string)
  : bool * list string :=
  let (in_body, body_lines) := st in
  if Str.startswith line "\begin{document}" then (true, body_lines)
  else if Str.endswith line "\end{document}" then (false, body_lines)
  else if in_body then (in_body, body_lines ++ [line])
  else (in_body, body_lines).

Definition extract (fs : filesystem) (parent root : Path) (line : string)
  : result (list string * Path) :=
  let mat := re.match_ pat line in
  stem <- group1 mat ;;
  let target := parent // (stem ++ ".tex")%string in
  text <- read_text fs target ;;
  let lines := Str.split Str.nl text in
  let body_lines := snd (fold_left scan_step lines (false, [])) in
  Ok (body_lines, target).

Definition self : BodyExtractor :=
  mkBodyExtractor matches extract.

End SubfileExtractor.

Definition extractors : list BodyExtractor :=
  [InputExtractor.self; SubfileExtractor.self].

(** ** The expander

    [root] is the module's global, set once by [main] before the first
    call; here it is a parameter, like the files of the run. *)

Section Expander.

Variable fs : filesystem.
Variable root : Path.

(** The loop of [extract_ifany] over a list of extractors. *)
Fixpoint extract_first (exs : list BodyExtractor) (parent : Path)
  (line : string) : result (option (list string * Path)) :=
  match exs with
  | [] => Ok None
  | extractor :: exs' =>
      if matches extractor line then
        extracted <- extract extractor fs parent root line ;;
        Ok (Some extracted)
      else extract_first exs' parent line
  end.

Definition extract_ifany (parent : Path) (line : string)
  : result (option (list string * Path)) :=
  extract_first extractors parent line.

Definition opening (depth : nat) (target_relation : string) : string :=
  let arrow := Str.times ">" (depth + 1) in
  ("% " ++ arrow ++ " " ++ target_relation ++ " " ++ arrow ++ " : texpack")%string.

Definition closing (depth : nat) (target_relation : string) : string :=
  let barrow := Str.times "<" (depth + 1) in
  ("% " ++ barrow ++ " " ++ target_relation ++ " " ++ barrow ++ " : texpack")%string.

Definition relative_to_root (target : Path) : result Path :=
  match pathlib.relative_to target root with
  | Some rel => Ok rel
  | None => Raise (ValueError target root)
  end.

(** The body of [expand]: the loop over [lines], [expanded_lines] being
    the accumulator and [rec] the recursive call. *)
Fixpoint expand_loop (rec : Path -> list string -> nat -> result (list string))
  (parent : Path) (depth : nat) (expanded_lines : list string)
  (lines : list string) : result (list string) :=
  match lines with
  | [] => Ok expanded_lines
  | line :: rest =>
      extracted <- extract_ifany parent line ;;
      match extracted with
      | Some (body_lines, target) =>
          rel <- relative_to_root target ;;
          let target_relation := pathlib.str rel in
          let expanded_lines := expanded_lines ++ [opening depth target_relation] in
          inner <- rec (pathlib.parent target) body_lines (depth + 1) ;;
          let expanded_lines := expanded_lines ++ inner in
          let expanded_lines := expanded_lines ++ [closing depth target_relation] in
          expand_loop rec parent depth expanded_lines rest
      | None =>
          expand_loop rec parent depth (expanded_lines ++ [line]) rest
      end
  end.

(** [expand(parent, lines, depth)] with [fuel] frames of call stack left:
    each nested inclusion takes one. *)
Fixpoint expand (fuel : nat) (parent : Path) (lines : list string)
  (depth : nat) {struct fuel} : result (list string) :=
  match fuel with
  | O => Raise RecursionError
  | S fuel' => expand_loop (expand fuel') parent depth [] lines
  end.

End Expander.

(** ** The driver *)

Record Args : Type := { entry_arg : string; output_arg : option string }.

Definition parse_args (parsed : Args) : Path * Path * Path :=
  let entry := pathlib.of_string (entry_arg parsed) in
  let entry_fn := pathlib.name entry in
  let parent := pathlib.parent entry in
  let default := ("merged_" ++ entry_fn)%string in
  let output :=
    match output_arg parsed with
    | Some o => if (o =? "")%string then default else o
    | None => default
    end in
  let output_fp := parent // output in
  (entry, parent, output_fp).

Inductive event : Type :=
| Prompted (text : string)
| Printed (text : string)
| Written (f : Path).

(** What a run sees and changes: the files, the line waiting on standard
    input (if any) and what the run did so far, in order. *)
Record World : Type := {
  files : filesystem;
  stdin : option string;
  trace : list event
}.

Inductive outcome : Type :=
| Returned
| SystemExit (code : Z)
| Uncaught (e : error).

Definition exit_status (o : outcome) : Z :=
  match o with
  | Returned => 0
  | SystemExit code => code mod 256
  | Uncaught _ => 1
  end.

Definition print (text : string) (w : World) : World :=
  {| files := files w; stdin := stdin w; trace := trace w ++ [Printed text] |}.

Definition input (text : string) (w : World) : result string * World :=
  let w' := {| files := files w; stdin := None;
               trace := trace w ++ [Prompted text] |} in
  match stdin w with
  | Some response => (Ok response, w')
  | None => (Raise EOFError, w')
  end.

Definition overwrite_prompt (output_fp : Path) : string :=
  ("The output file " ++ pathlib.name output_fp
   ++ " already exists. OVERWRITE THIS? ARE YOU SURE? [Y/other]")%string.

(** The part of [main] after the overwrite check. *)
Definition merge (fuel : nat) (entry parent output_fp : Path) (w : World)
  : outcome * World :=
  let root := parent in
  match read_text (files w) entry with
  | Raise e => (Uncaught e, w)
  | Ok entry_text =>
      let entry_lines := Str.split Str.nl entry_text in
      match expand (files w) root fuel parent entry_lines 0 with
      | Raise e => (Uncaught e, w)
      | Ok result =>
          let text := Str.join (String Str.nl "") result in
          match write_text (files w) output_fp text with
          | Raise e => (Uncaught e, w)
          | Ok files' =>
              (Returned,
               print "Merged File Written."
                 {| files := files'; stdin := stdin w;
                    trace := trace w ++ [Written output_fp] |})
          end
      end
  end.

Definition main (fuel : nat) (parsed : Args) (w : World) : outcome * World :=
  let '(entry, parent, output_fp) := parse_args parsed in
  if exists_ (files w) output_fp then
    match input (overwrite_prompt output_fp) w with
    | (Raise e, w') => (Uncaught e, w')
    | (Ok response, w') =>
        if negb (response =? "Y")%string then
          (SystemExit (-1), print "Aborted." w')
        else merge fuel entry parent output_fp w'
    end
  else merge fuel entry parent output_fp w.

(** The tail of both patterns: the group, then the closing brace. *)
Definition braced : re.pattern := [re.GroupDotStar; re.Lit "}"%char].

(** ** Notions the properties are stated with *)

(** [line] is a directive of one of the two kinds and [target] is the path
    its extractor resolves: against [root] for the whole-file kind, against
    [parent] for the document-body kind. *)
Definition directive (root parent : Path) (line : string) (target : Path) : Prop :=
  (exists stem, re.match_ InputExtractor.pat line = Some stem
                /\ target = root // (stem ++ ".tex")%string)
  \/ (exists stem, re.match_ SubfileExtractor.pat line = Some stem
                   /\ target = parent // (stem ++ ".tex")%string).

(** The body of a document as the specification words it: the lines met
    while in in-body mode, the begin line switching the mode on, the end
    line switching it off, neither of them collected. *)
Fixpoint in_body_lines (in_body : bool) (lines : list string) : list string :=
  match lines with
  | [] => []
  | line :: rest =>
      if Str.startswith line "\begin{document}" then in_body_lines true rest
      else if Str.endswith line "\end{document}" then in_body_lines false rest
      else if in_body then line :: in_body_lines true rest
      else in_body_lines false rest
  end.

(** The call [expand(parent, lines, depth)] with [fuel] frames left comes,
    in document order, to a directive whose target [t] cannot be read: at
    this level after the lines before it expanded, or inside the body of
    an inclusion. *)
Inductive meets_unreadable (fs : filesystem) (root : Path)
  : nat -> Path -> list string -> nat -> Path -> Prop :=
| unreadable_here fuel parent line rest depth t :
    directive root parent line t ->
    read_text fs t = Raise (ReadError t) ->
    meets_unreadable fs root (S fuel) parent (line :: rest) depth t
| unreadable_later fuel parent line rest depth out t :
    expand fs root (S fuel) parent [line] depth = Ok out ->
    meets_unreadable fs root (S fuel) parent rest depth t ->
    meets_unreadable fs root (S fuel) parent (line :: rest) depth t
| unreadable_inside fuel parent line rest depth body target rel t :
    extract_ifany fs root parent line = Ok (Some (body, target)) ->
    pathlib.relative_to target root = Some rel ->
    meets_unreadable fs root fuel (pathlib.parent target) body (depth + 1) t ->
    meets_unreadable fs root (S fuel) parent (line :: rest) depth t.

(** ** A small project to run the program on *)

Module Project.

Definition text_of (lines : list string) : string :=
  Str.join (String Str.nl "") lines.

Definition of_files (l : list (string * list string)) : filesystem :=
  fun p =>
    match find (fun e => pathlib.eqb (pathlib.of_string (fst e)) p) l with
    | Some e => Some (File (text_of (snd e)))
    | None => None
    end.

Definition proj : Path := pathlib.of_string "/proj".

Definition fs : filesystem :=
  of_files
    [("/proj/main.tex", ["intro"; "\input{sub/b}"; "outro"]);
     ("/proj/sub/b.tex", ["b1"; "\subfile{c}"; "b2"]);
     ("/proj/sub/c.tex",
       ["pre"; "\begin{document}"; "c1"; "\end{document}"; "post"]);
     ("/proj/../x.tex", ["\begin{document}"; "hello"; "\end{document}"]);
     ("/proj/{a}.b.tex", ["x"]);
     ("/etc/x.tex", ["secret"]);
     ("/proj/broken.tex", ["fine"; "\input{sub/b}"; "\subfile{missing}"]);
     ("/proj/merged_main.tex", ["old"]);
     ("/proj/loop.tex", ["\input{loop}"])].

Definition world (response : option string) : World :=
  {| files := fs; stdin := response; trace := [] |}.

End Project.

(** ** Further notions *)

(** A line neither extractor matches. *)
Definition plain (line : string) : Prop :=
  InputExtractor.matches line = false /\ SubfileExtractor.matches line = false.

(** A component as [pathlib] keeps them: not empty, not a single dot,
    free of slashes. *)
Definition component (x : string) : Prop :=
  pathlib.keep x = true /\ Str.mem pathlib.sep x = false.

(** A path as [pathlib] builds them. *)
Definition normal (p : Path) : Prop :=
  (anchor p = "" \/ anchor p = "/" \/ anchor p = "//")
  /\ Forall component (tail p).

(** A string without a newline: a line. *)
Definition is_line (s : string) : Prop := Str.mem Str.nl s = false.

(** * Properties *)

(** ** The model on concrete inputs *)

Example split_ex :
  Str.split Str.nl (Project.text_of ["a"; ""; "b"; ""]) = ["a"; ""; "b"; ""].
Proof. reflexivity. Qed.

Example match_greedy :
  re.match_ InputExtractor.pat "\input{a} and {b} c" = Some "a} and {b".
Proof. reflexivity. Qed.

Example match_anchored : re.match_ InputExtractor.pat " \input{a}" = None.
Proof. reflexivity. Qed.

Example match_stops_at_newline :
  re.match_ InputExtractor.pat (Project.text_of ["\input{a"; "}"]) = None.
Proof. reflexivity. Qed.

Example path_normalised :
  map (fun s => pathlib.str (pathlib.of_string s))
    [""; "."; "/"; "//"; "///"; "//a//b/./c/.."; "a/"; "./a"; "/.tex"]
  = ["."; "."; "/"; "//"; "/"; "//a/b/c/.."; "a"; "a"; "/.tex"].
Proof. reflexivity. Qed.

Example path_parent_name :
  map (fun s => (pathlib.str (pathlib.parent (pathlib.of_string s)),
                 pathlib.name (pathlib.of_string s)))
    ["main.tex"; "/proj/main.tex"; "/"; "a/b/.."]
  = [(".", "main.tex"); ("/proj", "main.tex"); ("/", ""); ("a/b", "..")].
Proof. reflexivity. Qed.

Example path_join_absolute :
  pathlib.str (pathlib.of_string "/a" // "//b") = "//b"
  /\ pathlib.str (pathlib.of_string "." // "x.tex") = "x.tex".
Proof. split; reflexivity. Qed.

Example relative_to_lexical :
  map (fun pq => option_map pathlib.str
                   (pathlib.relative_to (pathlib.of_string (fst pq))
                      (pathlib.of_string (snd pq))))
    [("/proj/../x.tex", "/proj"); ("/etc/x.tex", "/proj"); ("x.tex", ".");
     ("/x.tex", "."); ("//a/b", "/a"); ("/proj/r.tex", "/proj/r.tex")]
  = [Some "../x.tex"; None; Some "x.tex"; None; None; Some "."].
Proof. reflexivity. Qed.

Example main_merges :
  let (o, w) := main 3 {| entry_arg := "/proj/main.tex"; output_arg := Some "out.tex" |}
                  (Project.world None) in
  o = Returned
  /\ trace w = [Written (pathlib.of_string "/proj/out.tex");
                Printed "Merged File Written."]
  /\ files w (pathlib.of_string "/proj/out.tex")
     = Some (File (Project.text_of
          ["intro"; "% > sub/b.tex > : texpack"; "b1";
           "% >> sub/c.tex >> : texpack"; "c1"; "% << sub/c.tex << : texpack";
           "b2"; "% < sub/b.tex < : texpack"; "outro"])).
Proof. vm_compute. repeat split. Qed.

Example include_cycle_exhausts_stack :
  expand Project.fs Project.proj 50 Project.proj ["\input{loop}"] 0
  = Raise RecursionError.
Proof. vm_compute. reflexivity. Qed.

(** ** Strings *)

Lemma append_nil_r (s : string) : (s ++ "")%string = s.
Proof. induction s as [|a s IH]; simpl; [reflexivity | now rewrite IH]. Qed.

Lemma append_assoc (s t u : string) :
  ((s ++ t) ++ u)%string = (s ++ (t ++ u))%string.
Proof. induction s as [|a s IH]; simpl; [reflexivity | now rewrite IH]. Qed.

Lemma startswith_iff (s pre : string) :
  Str.startswith s pre = true <-> exists rest, s = (pre ++ rest)%string.
Proof.
  unfold Str.startswith. revert s.
  induction pre as [|a pre IH]; intros s.
  - destruct s; simpl; split; eauto.
  - destruct s as [|b s]; simpl.
    + split; [discriminate | intros [rest H]; discriminate].
    + destruct (ascii_dec a b) as [->|Hne].
      * rewrite IH. split; intros [rest H]; exists rest; congruence.
      * split; [discriminate | intros [rest H]; congruence].
Qed.

Lemma endswith_iff (s suf : string) :
  Str.endswith s suf = true <-> exists pre, s = (pre ++ suf)%string.
Proof.
  induction s as [|a s IH].
  - destruct suf as [|b suf]; simpl.
    + split; [exists ""; reflexivity | reflexivity].
    + split; [discriminate|].
      intros [pre H]. destruct pre; discriminate.
  - cbn [Str.endswith].
    destruct (String.eqb_spec (String a s) suf) as [<-|Hne].
    + split; [exists ""; reflexivity | reflexivity].
    + rewrite IH. split.
      * intros [pre ->]. exists (String a pre). reflexivity.
      * intros [pre H]. destruct pre as [|b pre]; simpl in H.
        -- congruence.
        -- exists pre. congruence.
Qed.

(** ** The two patterns *)

Lemma match_lit_app (pre : string) (p : re.pattern) (rest : string) :
  re.match_ (re.lit pre ++ p) (pre ++ rest)%string = re.match_ p rest.
Proof.
  induction pre as [|a pre IH]; simpl; [reflexivity|].
  now rewrite Ascii.eqb_refl.
Qed.

Lemma match_lit_inv (pre : string) (p : re.pattern) (s g : string) :
  re.match_ (re.lit pre ++ p) s = Some g ->
  exists rest, s = (pre ++ rest)%string /\ re.match_ p rest = Some g.
Proof.
  revert s. induction pre as [|a pre IH]; intros s H.
  - exists s. auto.
  - destruct s as [|b s]; simpl in H; [discriminate|].
    destruct (Ascii.eqb_spec b a) as [->|Hne]; [|discriminate].
    destruct (IH _ H) as [rest [-> Hm]]. exists rest. auto.
Qed.

Lemma match_lit_none (pre : string) (p : re.pattern) (s : string) :
  Str.startswith s pre = false -> re.match_ (re.lit pre ++ p) s = None.
Proof.
  intros H. destruct (re.match_ (re.lit pre ++ p) s) as [g|] eqn:E; [|reflexivity].
  apply match_lit_inv in E. destruct E as [rest [-> _]].
  assert (Str.startswith (pre ++ rest) pre = true) by (apply startswith_iff; eauto).
  congruence.
Qed.

Lemma braced_nil : re.match_ braced "" = None.
Proof. reflexivity. Qed.

Lemma braced_cons (a : ascii) (s : string) :
  re.match_ braced (String a s) =
  let stop := if (a =? "}")%char then Some ""%string else None in
  if (a =? Str.nl)%char then stop
  else match re.match_ braced s with
       | Some g => Some (String a g)
       | None => stop
       end.
Proof.
  unfold braced. simpl. destruct (a =? "}")%char; reflexivity.
Qed.

Lemma braced_sound (s g : string) :
  re.match_ braced s = Some g ->
  exists rest, s = (g ++ String "}" rest)%string /\ Str.mem Str.nl g = false.
Proof.
  revert g. induction s as [|a s IH]; intros g H.
  - discriminate.
  - rewrite braced_cons in H. cbv zeta in H.
    destruct (a =? Str.nl)%char eqn:Hnl.
    + destruct (Ascii.eqb_spec a "}") as [->|]; discriminate.
    + destruct (re.match_ braced s) as [g'|] eqn:E.
      * injection H as <-. destruct (IH _ eq_refl) as [rest [-> Hm]].
        exists rest. split; [reflexivity|]. simpl. now rewrite Hm, Hnl.
      * destruct (Ascii.eqb_spec a "}") as [->|]; [|discriminate].
        injection H as <-. exists s. auto.
Qed.

Lemma braced_complete (g rest : string) :
  Str.mem Str.nl g = false ->
  exists g', re.match_ braced (g ++ String "}" rest)%string = Some g'.
Proof.
  induction g as [|a g IH]; simpl Str.mem; intros H.
  - simpl append. rewrite braced_cons. cbv zeta.
    change ("}" =? Str.nl)%char with false.
    change ("}" =? "}")%char with true. cbv iota.
    destruct (re.match_ braced rest); eauto.
  - apply orb_false_iff in H. destruct H as [Ha Hg].
    simpl append. rewrite braced_cons. cbv zeta. rewrite Ha.
    destruct (IH Hg) as [g' ->]. eauto.
Qed.

Lemma braced_no_brace (s : string) :
  Str.mem "}" s = false -> re.match_ braced s = None.
Proof.
  induction s as [|a s IH]; simpl Str.mem; intros H; [reflexivity|].
  apply orb_false_iff in H. destruct H as [Ha Hs].
  rewrite braced_cons. cbv zeta. rewrite (IH Hs), Ha.
  destruct (a =? Str.nl)%char; reflexivity.
Qed.

Lemma braced_greedy (g rest : string) :
  Str.mem Str.nl g = false -> Str.mem "}" rest = false ->
  re.match_ braced (g ++ String "}" rest)%string = Some g.
Proof.
  intros Hg Hrest. induction g as [|a g IH]; simpl Str.mem in Hg.
  - simpl append. rewrite braced_cons. cbv zeta.
    rewrite (braced_no_brace _ Hrest). reflexivity.
  - apply orb_false_iff in Hg. destruct Hg as [Ha Hg].
    simpl append. rewrite braced_cons. cbv zeta. rewrite Ha, (IH Hg).
    reflexivity.
Qed.

Lemma input_pat_eq : InputExtractor.pat = re.lit "\input{" ++ braced.
Proof. reflexivity. Qed.

Lemma subfile_pat_eq : SubfileExtractor.pat = re.lit "\subfile{" ++ braced.
Proof. reflexivity. Qed.

(** A line matched by one pattern is not matched by the other: after the
    backslash the prefixes differ. *)
Lemma input_excludes_subfile (line stem : string) :
  re.match_ InputExtractor.pat line = Some stem ->
  re.match_ SubfileExtractor.pat line = None.
Proof.
  rewrite input_pat_eq. intros H.
  apply match_lit_inv in H. destruct H as [rest [-> _]]. reflexivity.
Qed.

Lemma subfile_excludes_input (line stem : string) :
  re.match_ SubfileExtractor.pat line = Some stem ->
  re.match_ InputExtractor.pat line = None.
Proof.
  rewrite subfile_pat_eq. intros H.
  apply match_lit_inv in H. destruct H as [rest [-> _]]. reflexivity.
Qed.

(** The stem of a directive written the plain way. *)
Lemma directive_stem (cmd stem rest : string) :
  Str.mem Str.nl stem = false -> Str.mem "}" rest = false ->
  re.match_ (re.lit cmd ++ braced) (cmd ++ stem ++ String "}" rest)%string
  = Some stem.
Proof.
  intros Hs Hr. rewrite match_lit_app. now apply braced_greedy.
Qed.

(** ** The scanning loop of the document-body extractor *)

Lemma scan_fold (lines : list string) (in_body : bool) (acc : list string) :
  snd (fold_left SubfileExtractor.scan_step lines (in_body, acc))
  = acc ++ in_body_lines in_body lines.
Proof.
  revert in_body acc. induction lines as [|line rest IH]; intros in_body acc.
  - simpl. now rewrite app_nil_r.
  - cbn [fold_left in_body_lines SubfileExtractor.scan_step].
    destruct (Str.startswith line "\begin{document}").
    + apply IH.
    + destruct (Str.endswith line "\end{document}").
      * apply IH.
      * destruct in_body.
        -- rewrite IH, <- app_assoc. reflexivity.
        -- apply IH.
Qed.

(** ** [extract_ifany] case by case *)

Section ExtractFacts.

Variable fs : filesystem.
Variable root : Path.

Lemma extract_ifany_input (parent : Path) (line stem : string) :
  re.match_ InputExtractor.pat line = Some stem ->
  extract_ifany fs root parent line =
  (body <- read_text fs (root // (stem ++ ".tex")%string) ;;
   Ok (Some (Str.split Str.nl body, root // (stem ++ ".tex")%string))).
Proof.
  intros H. unfold extract_ifany, extractors. cbn [extract_first].
  cbn [matches extract InputExtractor.self].
  unfold InputExtractor.matches, InputExtractor.extract. rewrite H.
  cbn [truthy group1 bind].
  destruct (read_text fs _); reflexivity.
Qed.

Lemma extract_ifany_subfile (parent : Path) (line stem : string) :
  re.match_ SubfileExtractor.pat line = Some stem ->
  extract_ifany fs root parent line =
  (text <- read_text fs (parent // (stem ++ ".tex")%string) ;;
   Ok (Some (in_body_lines false (Str.split Str.nl text),
             parent // (stem ++ ".tex")%string))).
Proof.
  intros H. unfold extract_ifany, extractors. cbn [extract_first].
  cbn [matches extract InputExtractor.self SubfileExtractor.self].
  unfold InputExtractor.matches.
  rewrite (subfile_excludes_input _ _ H). cbn [truthy].
  unfold SubfileExtractor.matches, SubfileExtractor.extract. rewrite H.
  cbn [truthy group1 bind].
  destruct (read_text fs _); cbn [bind]; [|reflexivity].
  now rewrite scan_fold.
Qed.

Lemma extract_ifany_none (parent : Path) (line : string) :
  InputExtractor.matches line = false ->
  SubfileExtractor.matches line = false ->
  extract_ifany fs root parent line = Ok None.
Proof.
  intros Hi Hs. unfold extract_ifany, extractors. cbn [extract_first].
  cbn [matches InputExtractor.self SubfileExtractor.self].
  now rewrite Hi, Hs.
Qed.

(** What [extract_ifany] can do on a line: nothing, or resolve a target
    and either return its lines or fail reading it. *)
Lemma extract_ifany_cases (parent : Path) (line : string) :
  (InputExtractor.matches line = false
   /\ SubfileExtractor.matches line = false
   /\ extract_ifany fs root parent line = Ok None)
  \/ (exists target,
        directive root parent line target
        /\ ((exists body, read_text fs target <> Raise (ReadError target)
               /\ extract_ifany fs root parent line = Ok (Some (body, target)))
            \/ (read_text fs target = Raise (ReadError target)
                /\ extract_ifany fs root parent line = Raise (ReadError target)))).
Proof.
  destruct (re.match_ InputExtractor.pat line) as [stem|] eqn:Hi.
  - right. exists (root // (stem ++ ".tex")%string). split.
    + left. eauto.
    + rewrite (extract_ifany_input parent _ _ Hi). unfold read_text.
      destruct (fs _) as [[text|]|]; cbn [bind]; eauto.
      left. eexists. split; [discriminate | reflexivity].
  - destruct (re.match_ SubfileExtractor.pat line) as [stem|] eqn:Hs.
    + right. exists (parent // (stem ++ ".tex")%string). split.
      * right. eauto.
      * rewrite (extract_ifany_subfile parent _ _ Hs). unfold read_text.
        destruct (fs _) as [[text|]|]; cbn [bind]; eauto.
        left. eexists. split; [discriminate | reflexivity].
    + left. assert (InputExtractor.matches line = false)
        by (unfold InputExtractor.matches; now rewrite Hi).
      assert (SubfileExtractor.matches line = false)
        by (unfold SubfileExtractor.matches; now rewrite Hs).
      auto using extract_ifany_none.
Qed.

Lemma read_text_raise (f : Path) (e : error) :
  read_text fs f = Raise e -> e = ReadError f.
Proof.
  unfold read_text. destruct (fs f) as [[text|]|]; congruence.
Qed.

Lemma directive_extract (parent : Path) (line : string) (target : Path) :
  directive root parent line target ->
  extract_ifany fs root parent line =
  (text <- read_text fs target ;;
   Ok (Some (match re.match_ InputExtractor.pat line with
             | Some _ => Str.split Str.nl text
             | None => in_body_lines false (Str.split Str.nl text)
             end, target))).
Proof.
  intros [[stem [H ->]]|[stem [H ->]]].
  - rewrite (extract_ifany_input parent _ _ H), H. reflexivity.
  - rewrite (extract_ifany_subfile parent _ _ H).
    rewrite (subfile_excludes_input _ _ H). reflexivity.
Qed.

End ExtractFacts.

(** ** The loop of [expand] *)

Section ExpandFacts.

Variable fs : filesystem.
Variable root : Path.
Variable rec : Path -> list string -> nat -> result (list string).

Lemma expand_loop_acc (parent : Path) (depth : nat) (lines acc : list string) :
  expand_loop fs root rec parent depth acc lines =
  (out <- expand_loop fs root rec parent depth [] lines ;; Ok (acc ++ out)).
Proof.
  revert acc. induction lines as [|line rest IH]; intros acc.
  - simpl. now rewrite app_nil_r.
  - cbn [expand_loop].
    destruct (extract_ifany fs root parent line) as [[[body target]|]|e];
      cbn [bind]; [| |reflexivity].
    + destruct (relative_to_root root target) as [rel|e]; cbn [bind];
        [|reflexivity].
      destruct (rec _ body (depth + 1)) as [inner|e]; cbn [bind];
        [|reflexivity].
      rewrite (IH (((acc ++ _) ++ _) ++ _)), (IH ((([] ++ _) ++ _) ++ _)).
      destruct (expand_loop fs root rec parent depth [] rest); cbn [bind];
        [|reflexivity].
      rewrite <- !app_assoc. reflexivity.
    + rewrite (IH (acc ++ _)), (IH ([] ++ _)).
      destruct (expand_loop fs root rec parent depth [] rest); cbn [bind];
        [|reflexivity].
      rewrite <- !app_assoc. reflexivity.
Qed.

Lemma expand_loop_cons (parent : Path) (depth : nat) (line : string)
  (rest : list string) :
  expand_loop fs root rec parent depth [] (line :: rest) =
  (extracted <- extract_ifany fs root parent line ;;
   match extracted with
   | Some (body_lines, target) =>
       rel <- relative_to_root root target ;;
       inner <- rec (pathlib.parent target) body_lines (depth + 1) ;;
       out <- expand_loop fs root rec parent depth [] rest ;;
       Ok (opening depth (pathlib.str rel)
           :: inner ++ closing depth (pathlib.str rel) :: out)
   | None =>
       out <- expand_loop fs root rec parent depth [] rest ;;
       Ok (line :: out)
   end).
Proof.
  cbn [expand_loop].
  destruct (extract_ifany fs root parent line) as [[[body target]|]|e];
    cbn [bind]; [| |reflexivity].
  - destruct (relative_to_root root target) as [rel|e]; cbn [bind];
      [|reflexivity].
    destruct (rec _ body (depth + 1)) as [inner|e]; cbn [bind];
      [|reflexivity].
    rewrite expand_loop_acc.
    destruct (expand_loop fs root rec parent depth [] rest); cbn [bind];
      [|reflexivity].
    cbn [app]. now rewrite <- app_assoc.
  - rewrite expand_loop_acc.
    destruct (expand_loop fs root rec parent depth [] rest); reflexivity.
Qed.

Lemma expand_loop_app (parent : Path) (depth : nat) (l1 l2 : list string) :
  expand_loop fs root rec parent depth [] (l1 ++ l2) =
  (o1 <- expand_loop fs root rec parent depth [] l1 ;;
   o2 <- expand_loop fs root rec parent depth [] l2 ;;
   Ok (o1 ++ o2)).
Proof.
  induction l1 as [|line rest IH].
  - cbn [app expand_loop bind].
    destruct (expand_loop fs root rec parent depth [] l2); reflexivity.
  - rewrite <- app_comm_cons, !expand_loop_cons.
    destruct (extract_ifany fs root parent line) as [[[body target]|]|e];
      cbn [bind]; [| |reflexivity].
    + destruct (relative_to_root root target) as [rel|e]; cbn [bind];
        [|reflexivity].
      destruct (rec _ body (depth + 1)) as [inner|e]; cbn [bind];
        [|reflexivity].
      rewrite IH.
      destruct (expand_loop fs root rec parent depth [] rest); cbn [bind];
        [|reflexivity].
      destruct (expand_loop fs root rec parent depth [] l2); cbn [bind];
        [|reflexivity].
      cbn [app]. now rewrite <- app_assoc.
    + rewrite IH.
      destruct (expand_loop fs root rec parent depth [] rest); cbn [bind];
        [|reflexivity].
      destruct (expand_loop fs root rec parent depth [] l2); reflexivity.
Qed.

End ExpandFacts.

(** ** Matching *)

Lemma truthy_braced_iff (cmd line : string) :
  truthy (re.match_ (re.lit cmd ++ braced) line) = true <->
  exists stem rest,
    line = (cmd ++ stem ++ String "}" rest)%string
    /\ Str.mem Str.nl stem = false.
Proof.
  split.
  - destruct (re.match_ (re.lit cmd ++ braced) line) as [g|] eqn:E;
      [intros _ | discriminate].
    apply match_lit_inv in E. destruct E as [tl [-> E]].
    apply braced_sound in E. destruct E as [rest [-> Hg]]. eauto.
  - intros [stem [rest [-> Hs]]]. rewrite match_lit_app.
    destruct (braced_complete stem rest Hs) as [g' ->]. reflexivity.
Qed.

Lemma no_prefix_no_match (cmd line : string) :
  Str.startswith line cmd = false ->
  truthy (re.match_ (re.lit cmd ++ braced) line) = false.
Proof. intros H. now rewrite match_lit_none. Qed.

Section ExpandLaws.

Variable fs : filesystem.
Variable root : Path.

Lemma expand_S (fuel : nat) (parent : Path) (lines : list string) (depth : nat) :
  expand fs root (S fuel) parent lines depth =
  expand_loop fs root (expand fs root fuel) parent depth [] lines.
Proof. reflexivity. Qed.

Lemma expand_plain_line (fuel : nat) (parent : Path) (line : string)
  (rest : list string) (depth : nat) :
  InputExtractor.matches line = false ->
  SubfileExtractor.matches line = false ->
  expand fs root (S fuel) parent (line :: rest) depth =
  (out <- expand fs root (S fuel) parent rest depth ;; Ok (line :: out)).
Proof.
  intros Hi Hs. rewrite !expand_S, expand_loop_cons.
  now rewrite (extract_ifany_none fs root parent line Hi Hs).
Qed.

Lemma expand_plain_single (fuel : nat) (parent : Path) (line : string)
  (depth : nat) :
  InputExtractor.matches line = false ->
  SubfileExtractor.matches line = false ->
  expand fs root (S fuel) parent [line] depth = Ok [line].
Proof.
  intros Hi Hs. now rewrite (expand_plain_line fuel parent line [] depth Hi Hs).
Qed.

End ExpandLaws.

(** C1: a line matched and extracted at depth [d] contributes to the output
    exactly the opening marker ["% " + (d+1) times ">" + " " + path + " " +
    (d+1) times ">" + " : texpack"], the body expanded at depth [d+1] from
    the directory of the target, and the closing marker with as many ["<"],
    in this order, between the expansions of the lines before and after it;
    [path] is the target relative to the project root. *)
Theorem expand_brackets_inclusion (fs : filesystem) (root : Path) (fuel : nat)
  (parent : Path) (pre : list string) (line : string) (post : list string)
  (depth : nat) (body : list string) (target : Path) (out : list string) :
  extract_ifany fs root parent line = Ok (Some (body, target)) ->
  (expand fs root (S fuel) parent (pre ++ line :: post) depth = Ok out <->
   exists rel out_pre out_body out_post,
     pathlib.relative_to target root = Some rel
     /\ expand fs root (S fuel) parent pre depth = Ok out_pre
     /\ expand fs root fuel (pathlib.parent target) body (depth + 1) = Ok out_body
     /\ expand fs root (S fuel) parent post depth = Ok out_post
     /\ out =
        out_pre
        ++ [("% " ++ Str.times ">" (depth + 1) ++ " " ++ pathlib.str rel
             ++ " " ++ Str.times ">" (depth + 1) ++ " : texpack")%string]
        ++ out_body
        ++ [("% " ++ Str.times "<" (depth + 1) ++ " " ++ pathlib.str rel
             ++ " " ++ Str.times "<" (depth + 1) ++ " : texpack")%string]
        ++ out_post).
Proof.
  intros Hex. rewrite !expand_S, expand_loop_app, expand_loop_cons, Hex.
  unfold relative_to_root. cbn [bind]. split.
  - destruct (expand_loop fs root _ parent depth [] pre) as [out_pre|e];
      cbn [bind]; [|discriminate].
    destruct (pathlib.relative_to target root) as [rel|]; cbn [bind];
      [|discriminate].
    destruct (expand fs root fuel _ body (depth + 1)) as [out_body|e];
      cbn [bind]; [|discriminate].
    destruct (expand_loop fs root _ parent depth [] post) as [out_post|e];
      cbn [bind]; [|discriminate].
    intros H. injection H as <-.
    exists rel, out_pre, out_body, out_post. repeat split; reflexivity.
  - intros [rel [out_pre [out_body [out_post [Hrel [Hpre [Hbody [Hpost ->]]]]]]]].
    rewrite Hpre, Hrel. cbn [bind]. rewrite Hbody. cbn [bind].
    rewrite Hpost. reflexivity.
Qed.

(** C4: lines none of which matches a directive variant are expanded to
    themselves, whatever the current directory and the depth. *)
Theorem expand_identity (fs : filesystem) (root : Path) (fuel : nat)
  (parent : Path) (lines : list string) (depth : nat) :
  Forall (fun line => InputExtractor.matches line = false
                      /\ SubfileExtractor.matches line = false) lines ->
  expand fs root (S fuel) parent lines depth = Ok lines.
Proof.
  induction 1 as [|line rest [Hi Hs] _ IH].
  - reflexivity.
  - rewrite (expand_plain_line fs root fuel parent line rest depth Hi Hs), IH.
    reflexivity.
Qed.

(** C5: each variant matches exactly the lines that from their first
    character on are its literal prefix, an argument and a closing brace;
    a line that does not begin with either prefix, whatever it contains
    further on, matches neither and is passed through unchanged. *)
Theorem matches_from_line_start (line : string) :
  (InputExtractor.matches line = true <->
   exists stem rest,
     line = ("\input{" ++ stem ++ "}" ++ rest)%string
     /\ Str.mem Str.nl stem = false)
  /\ (SubfileExtractor.matches line = true <->
      exists stem rest,
        line = ("\subfile{" ++ stem ++ "}" ++ rest)%string
        /\ Str.mem Str.nl stem = false)
  /\ (Str.startswith line "\input{" = false ->
      Str.startswith line "\subfile{" = false ->
      InputExtractor.matches line = false
      /\ SubfileExtractor.matches line = false
      /\ forall fs root fuel parent depth,
           expand fs root (S fuel) parent [line] depth = Ok [line]).
Proof.
  split; [|split].
  - apply (truthy_braced_iff "\input{").
  - apply (truthy_braced_iff "\subfile{").
  - intros Hi Hs.
    pose proof (no_prefix_no_match "\input{" line Hi) as Mi.
    pose proof (no_prefix_no_match "\subfile{" line Hs) as Ms.
    split; [exact Mi | split; [exact Ms|]].
    intros fs root fuel parent depth.
    apply expand_plain_single; assumption.
Qed.

(** C6: no line is matched by both variants, so [extract_ifany] does the
    same whichever of the two it asks first. *)
Theorem variants_mutually_exclusive (line : string) :
  InputExtractor.matches line && SubfileExtractor.matches line = false
  /\ forall fs root parent,
       extract_ifany fs root parent line
       = extract_first fs root (rev extractors) parent line.
Proof.
  assert (Hex : InputExtractor.matches line && SubfileExtractor.matches line = false).
  { unfold InputExtractor.matches, SubfileExtractor.matches.
    destruct (re.match_ InputExtractor.pat line) as [stem|] eqn:Hi;
      [|reflexivity].
    now rewrite (input_excludes_subfile _ _ Hi). }
  split; [exact Hex|].
  intros fs root parent. unfold extract_ifany, extractors.
  cbn [rev app extract_first matches InputExtractor.self SubfileExtractor.self].
  destruct (InputExtractor.matches line), (SubfileExtractor.matches line);
    try reflexivity. discriminate.
Qed.

(** ** Splitting and joining *)

Lemma split_not_nil (c : ascii) (s : string) : Str.split c s <> [].
Proof.
  induction s as [|a s IH]; simpl; [discriminate|].
  destruct (a =? c)%char; [discriminate|].
  destruct (Str.split c s); [contradiction | discriminate].
Qed.

Lemma join_cons (sep x : string) (xs : list string) :
  xs <> [] ->
  Str.join sep (x :: xs) = (x ++ sep ++ Str.join sep xs)%string.
Proof. destruct xs; [contradiction | reflexivity]. Qed.

Lemma join_cons_char (sep : string) (a : ascii) (l : string) (ls : list string) :
  Str.join sep (String a l :: ls) = String a (Str.join sep (l :: ls)).
Proof. destruct ls; reflexivity. Qed.

Lemma join_split (c : ascii) (s : string) :
  Str.join (String c "") (Str.split c s) = s.
Proof.
  induction s as [|a s IH]; [reflexivity|].
  cbn [Str.split]. destruct (Ascii.eqb_spec a c) as [->|Hne].
  - rewrite join_cons by apply split_not_nil. now rewrite IH.
  - pose proof (split_not_nil c s) as Hnil.
    destruct (Str.split c s) as [|l ls]; [contradiction|].
    now rewrite join_cons_char, IH.
Qed.

(** ** The body of a document *)

Lemma in_body_lines_begin (mode : bool) (pre : list string) (b : string)
  (rest : list string) :
  Str.startswith b "\begin{document}" = true ->
  in_body_lines mode (pre ++ b :: rest)
  = in_body_lines mode pre ++ in_body_lines true rest.
Proof.
  intros Hb. revert mode. induction pre as [|l pre IH]; intros mode.
  - cbn [app in_body_lines]. rewrite Hb.
    destruct mode; reflexivity.
  - cbn [app in_body_lines].
    destruct (Str.startswith l "\begin{document}"); [apply IH|].
    destruct (Str.endswith l "\end{document}"); [apply IH|].
    destruct mode; [|apply IH]. rewrite IH. reflexivity.
Qed.

Lemma in_body_lines_no_begin (lines : list string) :
  Forall (fun l => Str.startswith l "\begin{document}" = false) lines ->
  in_body_lines false lines = [].
Proof.
  induction 1 as [|l rest Hl _ IH]; [reflexivity|].
  cbn [in_body_lines]. rewrite Hl, IH.
  destruct (Str.endswith l "\end{document}"); reflexivity.
Qed.

Lemma in_body_lines_no_end (rest : list string) :
  Forall (fun l => Str.endswith l "\end{document}" = false) rest ->
  in_body_lines true rest
  = filter (fun l => negb (Str.startswith l "\begin{document}")) rest.
Proof.
  induction 1 as [|l rest Hl _ IH]; [reflexivity|].
  cbn [in_body_lines filter]. rewrite Hl, IH.
  destruct (Str.startswith l "\begin{document}"); reflexivity.
Qed.

Lemma filter_all_plain (rest : list string) :
  Forall (fun l => Str.startswith l "\begin{document}" = false) rest ->
  filter (fun l => negb (Str.startswith l "\begin{document}")) rest = rest.
Proof.
  induction 1 as [|l rest Hl _ IH]; [reflexivity|].
  cbn [filter]. now rewrite Hl, IH.
Qed.

(** C2: a document-body include with stem [S], met while expanding a file
    of directory [P], resolves to [P / "S.tex"] whatever the project root
    is, and yields the lines of the target collected in in-body mode; with
    no begin line the body is empty, and after a begin line that no end
    line follows every remaining line is collected (further begin lines,
    which are never collected, apart: without them the body ends with
    the remaining lines as they are). *)
Theorem subfile_extract_body (fs : filesystem) (root P : Path)
  (line S text : string) :
  re.match_ SubfileExtractor.pat line = Some S ->
  read_text fs (P // (S ++ ".tex")%string) = Ok text ->
  extract_ifany fs root P line
  = Ok (Some (in_body_lines false (Str.split Str.nl text),
              P // (S ++ ".tex")%string))
  /\ SubfileExtractor.extract fs P root line
     = Ok (in_body_lines false (Str.split Str.nl text),
           P // (S ++ ".tex")%string)
  /\ (Forall (fun l => Str.startswith l "\begin{document}" = false)
        (Str.split Str.nl text) ->
      in_body_lines false (Str.split Str.nl text) = [])
  /\ (forall pre b rest,
        Str.split Str.nl text = pre ++ b :: rest ->
        Str.startswith b "\begin{document}" = true ->
        Forall (fun l => Str.endswith l "\end{document}" = false) rest ->
        in_body_lines false (Str.split Str.nl text)
        = in_body_lines false pre
          ++ filter (fun l => negb (Str.startswith l "\begin{document}")) rest
        /\ (Forall (fun l => Str.startswith l "\begin{document}" = false) rest ->
            in_body_lines false (Str.split Str.nl text)
            = in_body_lines false pre ++ rest)).
Proof.
  intros Hm Hr. split; [|split; [|split]].
  - rewrite (extract_ifany_subfile fs root P _ _ Hm), Hr. reflexivity.
  - unfold SubfileExtractor.extract. rewrite Hm. cbn [group1 bind].
    rewrite Hr. cbn [bind]. now rewrite scan_fold.
  - apply in_body_lines_no_begin.
  - intros pre b rest -> Hb Hrest.
    rewrite (in_body_lines_begin _ _ _ _ Hb).
    rewrite (in_body_lines_no_end _ Hrest). split; [reflexivity|].
    intros Hplain. f_equal. apply filter_all_plain, Hplain.
Qed.

(** C3: a whole-file include with stem [S] resolves to [root / "S.tex"]
    whatever the current directory is, and yields the whole text of the
    target split at its newlines, nothing dropped or changed. *)
Theorem input_extract_whole_file (fs : filesystem) (root P : Path)
  (line S text : string) :
  re.match_ InputExtractor.pat line = Some S ->
  read_text fs (root // (S ++ ".tex")%string) = Ok text ->
  extract_ifany fs root P line
  = Ok (Some (Str.split Str.nl text, root // (S ++ ".tex")%string))
  /\ InputExtractor.extract fs P root line
     = Ok (Str.split Str.nl text, root // (S ++ ".tex")%string)
  /\ Str.join (String Str.nl "") (Str.split Str.nl text) = text.
Proof.
  intros Hm Hr. split; [|split].
  - rewrite (extract_ifany_input fs root P _ _ Hm), Hr. reflexivity.
  - unfold InputExtractor.extract. rewrite Hm. cbn [group1 bind].
    rewrite Hr. reflexivity.
  - apply join_split.
Qed.

(** ** Failures abort the expansion *)

Lemma meets_unreadable_raises (fs : filesystem) (root : Path) (fuel : nat)
  (parent : Path) (lines : list string) (depth : nat) (t : Path) :
  meets_unreadable fs root fuel parent lines depth t ->
  expand fs root fuel parent lines depth = Raise (ReadError t).
Proof.
  induction 1 as [fuel parent line rest depth t Hd Hr
                 |fuel parent line rest depth out t Hline _ IH
                 |fuel parent line rest depth body target rel t Hex Hrel _ IH].
  - rewrite expand_S, expand_loop_cons.
    rewrite (directive_extract fs root parent line t Hd), Hr. reflexivity.
  - change (line :: rest) with ([line] ++ rest).
    rewrite expand_S, expand_loop_app, <- !expand_S, Hline, IH. reflexivity.
  - rewrite expand_S, expand_loop_cons, Hex. cbn [bind].
    unfold relative_to_root. rewrite Hrel. cbn [bind]. rewrite IH.
    reflexivity.
Qed.

Lemma merge_keeps_files (fuel : nat) (entry parent output_fp : Path)
  (w w' : World) (o : outcome) :
  merge fuel entry parent output_fp w = (o, w') ->
  o <> Returned -> files w' = files w.
Proof.
  unfold merge.
  destruct (read_text (files w) entry) as [text|e]; [|now intros [= <- <-]].
  destruct (expand _ _ _ _ _ _) as [out|e]; [|now intros [= <- <-]].
  destruct (write_text _ _ _) as [files'|e]; [|now intros [= <- <-]].
  intros [= <- <-] H. contradiction.
Qed.

(** The files change only in a run that returns. *)
Lemma main_keeps_files (fuel : nat) (parsed : Args) (w w' : World) (o : outcome) :
  main fuel parsed w = (o, w') -> o <> Returned -> files w' = files w.
Proof.
  unfold main. destruct (parse_args parsed) as [[entry parent] output_fp].
  destruct (exists_ (files w) output_fp).
  - unfold input. destruct (stdin w) as [response|].
    + destruct (negb (response =? "Y")%string).
      * now intros [= <- <-].
      * intros H Ho. now rewrite (merge_keeps_files _ _ _ _ _ _ _ H Ho).
    + now intros [= <- <-].
  - apply merge_keeps_files.
Qed.

(** C7: when the run comes to a matched directive whose target cannot be
    read, it ends in the uncaught error of that read and the files are as
    they were: nothing was written. *)
Theorem unreadable_target_aborts (fuel : nat) (parsed : Args) (w : World)
  (entry parent output_fp : Path) (text : string) (t : Path) :
  parse_args parsed = (entry, parent, output_fp) ->
  exists_ (files w) output_fp = false \/ stdin w = Some "Y" ->
  read_text (files w) entry = Ok text ->
  meets_unreadable (files w) parent fuel parent (Str.split Str.nl text) 0 t ->
  exists w',
    main fuel parsed w = (Uncaught (ReadError t), w')
    /\ files w' = files w.
Proof.
  intros Hp Hgo Hentry Hmeet.
  apply meets_unreadable_raises in Hmeet.
  assert (Hmerge : forall w0, files w0 = files w ->
            merge fuel entry parent output_fp w0 = (Uncaught (ReadError t), w0)).
  { intros w0 Hw0. unfold merge. rewrite Hw0, Hentry, Hmeet. reflexivity. }
  unfold main. rewrite Hp.
  destruct (exists_ (files w) output_fp) eqn:Hex.
  - destruct Hgo as [Hgo|Hgo]; [discriminate|].
    unfold input. rewrite Hgo. cbn [String.eqb negb].
    change (negb ("Y" =? "Y")%string) with false. cbv iota.
    eexists. split; [apply Hmerge; reflexivity | reflexivity].
  - eexists. split; [apply Hmerge; reflexivity | reflexivity].
Qed.

(** ** The pattern takes any argument *)

Lemma unclosed_no_match (cmd tl : string) :
  Str.mem "}" tl = false ->
  re.match_ (re.lit cmd ++ braced) (cmd ++ tl)%string = None.
Proof. intros H. rewrite match_lit_app. now apply braced_no_brace. Qed.

Lemma braced_longest (s g stem rest : string) :
  re.match_ braced s = Some g ->
  s = (stem ++ String "}" rest)%string ->
  Str.mem Str.nl stem = false ->
  String.length stem <= String.length g.
Proof.
  revert g stem. induction s as [|a s IH]; intros g stem Hm Hs HS.
  - destruct stem; discriminate.
  - destruct stem as [|b stem]; [simpl; lia|].
    injection Hs as <- ->. simpl in HS.
    apply orb_false_iff in HS. destruct HS as [Hb HS].
    rewrite braced_cons in Hm. cbv zeta in Hm. rewrite Hb in Hm.
    destruct (braced_complete stem rest HS) as [g' Hg']. rewrite Hg' in Hm.
    injection Hm as <-. simpl. apply le_n_S. exact (IH g' stem Hg' eq_refl HS).
Qed.

(** A line with a closing brace after the prefix matches, whatever
    follows the brace, and its stem runs to the last closing brace before
    the first newline. *)
Lemma directive_line_stem (cmd arg rest : string) :
  Str.mem Str.nl arg = false ->
  exists stem rest',
    re.match_ (re.lit cmd ++ braced) (cmd ++ arg ++ String "}" rest)%string
    = Some stem
    /\ (cmd ++ arg ++ String "}" rest)%string
       = (cmd ++ stem ++ String "}" rest')%string
    /\ Str.mem Str.nl stem = false
    /\ String.length arg <= String.length stem
    /\ (Str.mem "}" rest = false -> stem = arg).
Proof.
  intros Harg. rewrite match_lit_app.
  destruct (braced_complete arg rest Harg) as [stem Hm].
  destruct (braced_sound _ _ Hm) as [rest' [Heq Hstem]].
  exists stem, rest'. split; [exact Hm|]. split; [now rewrite Heq|].
  split; [exact Hstem|]. split.
  - exact (braced_longest _ _ _ _ Hm eq_refl Harg).
  - intros Hrest. rewrite (braced_greedy arg rest Harg Hrest) in Hm.
    now injection Hm.
Qed.

Section Propagation.

Variable fs : filesystem.
Variable root : Path.

(** What the extraction of a line raises, the expansion of the lines
    around it raises. *)
Lemma expand_raises_at (fuel : nat) (parent : Path) (pre : list string)
  (line : string) (post : list string) (depth : nat) (out_pre : list string)
  (e : error) :
  expand fs root (S fuel) parent pre depth = Ok out_pre ->
  extract_ifany fs root parent line = Raise e ->
  expand fs root (S fuel) parent (pre ++ line :: post) depth = Raise e.
Proof.
  intros Hpre Hex. rewrite expand_S, expand_loop_app, <- expand_S, Hpre.
  cbn [bind]. now rewrite expand_loop_cons, Hex.
Qed.

(** What the expansion of an included body raises, the expansion of the
    including lines raises. *)
Lemma expand_raises_inside (fuel : nat) (parent : Path) (pre : list string)
  (line : string) (post : list string) (depth : nat) (out_pre : list string)
  (body : list string) (target rel : Path) (e : error) :
  expand fs root (S fuel) parent pre depth = Ok out_pre ->
  extract_ifany fs root parent line = Ok (Some (body, target)) ->
  pathlib.relative_to target root = Some rel ->
  expand fs root fuel (pathlib.parent target) body (depth + 1) = Raise e ->
  expand fs root (S fuel) parent (pre ++ line :: post) depth = Raise e.
Proof.
  intros Hpre Hex Hrel Hin. rewrite expand_S, expand_loop_app, <- expand_S, Hpre.
  cbn [bind]. rewrite expand_loop_cons, Hex. cbn [bind].
  unfold relative_to_root. rewrite Hrel. cbn [bind]. now rewrite Hin.
Qed.

End Propagation.

(** What the expansion of the entry raises ends the run, uncaught, the
    files as they were. *)
Lemma main_raises (fuel : nat) (parsed : Args) (w : World)
  (entry parent output_fp : Path) (text : string) (e : error) :
  parse_args parsed = (entry, parent, output_fp) ->
  exists_ (files w) output_fp = false \/ stdin w = Some "Y" ->
  read_text (files w) entry = Ok text ->
  expand (files w) parent fuel parent (Str.split Str.nl text) 0 = Raise e ->
  exists w', main fuel parsed w = (Uncaught e, w') /\ files w' = files w.
Proof.
  intros Hp Hgo Hentry Hexp.
  assert (Hmerge : forall w0, files w0 = files w ->
            merge fuel entry parent output_fp w0 = (Uncaught e, w0)).
  { intros w0 Hw0. unfold merge. rewrite Hw0, Hentry, Hexp. reflexivity. }
  unfold main. rewrite Hp.
  destruct (exists_ (files w) output_fp) eqn:Hex.
  - destruct Hgo as [Hgo|Hgo]; [discriminate|].
    unfold input. rewrite Hgo.
    change (negb ("Y" =? "Y")%string) with false. cbv iota.
    eexists. split; [apply Hmerge; reflexivity | reflexivity].
  - eexists. split; [apply Hmerge; reflexivity | reflexivity].
Qed.

(** C8, as the code has it: extraction never fails on the pattern.  A
    line with the prefix and a closing brace after it is a directive,
    whatever follows the brace; the text between the opening brace and the
    last closing brace, whatever it is, is the stem; the target is read,
    and extraction returns its lines or fails with the error of the read.
    That error is raised by every enclosing expansion and ends the run,
    uncaught, nothing written.  A line with the prefix and no closing
    brace is no directive and is passed through unchanged. *)
Theorem extraction_takes_any_argument (fs : filesystem) (root parent : Path)
  (line : string) :
  extract_ifany fs root parent line <> Raise AttributeError
  /\ (extract_ifany fs root parent line = Ok None
      \/ exists target,
           directive root parent line target
           /\ ((exists body,
                  extract_ifany fs root parent line = Ok (Some (body, target)))
               \/ extract_ifany fs root parent line = Raise (ReadError target)))
  /\ (forall S, Str.mem Str.nl S = false ->
        re.match_ InputExtractor.pat ("\input{" ++ S ++ "}")%string = Some S
        /\ re.match_ SubfileExtractor.pat ("\subfile{" ++ S ++ "}")%string = Some S)
  /\ (forall tl fuel depth, Str.mem "}" tl = false ->
        InputExtractor.matches ("\input{" ++ tl)%string = false
        /\ SubfileExtractor.matches ("\subfile{" ++ tl)%string = false
        /\ expand fs root (S fuel) parent ["\input{" ++ tl]%string depth
           = Ok ["\input{" ++ tl]%string
        /\ expand fs root (S fuel) parent ["\subfile{" ++ tl]%string depth
           = Ok ["\subfile{" ++ tl]%string)
  /\ (forall arg rest, Str.mem Str.nl arg = false ->
        line = ("\input{" ++ arg ++ "}" ++ rest)%string ->
        exists stem rest',
          re.match_ InputExtractor.pat line = Some stem
          /\ line = ("\input{" ++ stem ++ "}" ++ rest')%string
          /\ Str.mem Str.nl stem = false
          /\ String.length arg <= String.length stem
          /\ (Str.mem "}" rest = false -> stem = arg)
          /\ extract_ifany fs root parent line
             = (text <- read_text fs (root // (stem ++ ".tex")%string) ;;
                Ok (Some (Str.split Str.nl text,
                          root // (stem ++ ".tex")%string))))
  /\ (forall arg rest, Str.mem Str.nl arg = false ->
        line = ("\subfile{" ++ arg ++ "}" ++ rest)%string ->
        exists stem rest',
          re.match_ SubfileExtractor.pat line = Some stem
          /\ line = ("\subfile{" ++ stem ++ "}" ++ rest')%string
          /\ Str.mem Str.nl stem = false
          /\ String.length arg <= String.length stem
          /\ (Str.mem "}" rest = false -> stem = arg)
          /\ extract_ifany fs root parent line
             = (text <- read_text fs (parent // (stem ++ ".tex")%string) ;;
                Ok (Some (in_body_lines false (Str.split Str.nl text),
                          parent // (stem ++ ".tex")%string))))
  /\ (forall e fuel pre post depth out_pre,
        extract_ifany fs root parent line = Raise e ->
        expand fs root (S fuel) parent pre depth = Ok out_pre ->
        expand fs root (S fuel) parent (pre ++ line :: post) depth = Raise e)
  /\ (forall e fuel outer pre includer post depth out_pre body target rel,
        expand fs root (S fuel) outer pre depth = Ok out_pre ->
        extract_ifany fs root outer includer = Ok (Some (body, target)) ->
        pathlib.relative_to target root = Some rel ->
        expand fs root fuel (pathlib.parent target) body (depth + 1) = Raise e ->
        expand fs root (S fuel) outer (pre ++ includer :: post) depth = Raise e)
  /\ (forall e fuel parsed w entry output_fp text,
        parse_args parsed = (entry, root, output_fp) ->
        files w = fs ->
        exists_ fs output_fp = false \/ stdin w = Some "Y" ->
        read_text fs entry = Ok text ->
        expand fs root fuel root (Str.split Str.nl text) 0 = Raise e ->
        exists w', main fuel parsed w = (Uncaught e, w') /\ files w' = fs).
Proof.
  split; [|split; [|split; [|split; [|split; [|split; [|split; [|split]]]]]]].
  - destruct (extract_ifany_cases fs root parent line)
      as [[_ [_ H]]|[target [_ [[body [_ H]]|[_ H]]]]]; rewrite H; discriminate.
  - destruct (extract_ifany_cases fs root parent line)
      as [[_ [_ H]]|[target [Hd [[body [_ H]]|[_ H]]]]]; eauto 7.
  - intros S HS. split.
    + apply (directive_stem "\input{" S ""); [exact HS | reflexivity].
    + apply (directive_stem "\subfile{" S ""); [exact HS | reflexivity].
  - intros tl fuel depth Htl.
    assert (Hi : InputExtractor.matches ("\input{" ++ tl)%string = false).
    { unfold InputExtractor.matches. rewrite input_pat_eq.
      now rewrite unclosed_no_match. }
    assert (Hs : SubfileExtractor.matches ("\subfile{" ++ tl)%string = false).
    { unfold SubfileExtractor.matches. rewrite subfile_pat_eq.
      now rewrite unclosed_no_match. }
    split; [exact Hi | split; [exact Hs | split]].
    + apply expand_plain_single; [exact Hi | reflexivity].
    + apply expand_plain_single; [reflexivity | exact Hs].
  - intros arg rest Harg ->.
    destruct (directive_line_stem "\input{" arg rest Harg)
      as [stem [rest' [Hm [Heq [Hstem [Hlen Hlast]]]]]].
    exists stem, rest'. repeat split; try assumption.
    apply (extract_ifany_input fs root parent _ stem Hm).
  - intros arg rest Harg ->.
    destruct (directive_line_stem "\subfile{" arg rest Harg)
      as [stem [rest' [Hm [Heq [Hstem [Hlen Hlast]]]]]].
    exists stem, rest'. repeat split; try assumption.
    apply (extract_ifany_subfile fs root parent _ stem Hm).
  - intros e fuel pre post depth out_pre Hex Hpre.
    exact (expand_raises_at fs root fuel parent pre line post depth out_pre e
             Hpre Hex).
  - intros e fuel outer pre includer post depth out_pre body target rel
      Hpre Hex Hrel Hin.
    exact (expand_raises_inside fs root fuel outer pre includer post depth
             out_pre body target rel e Hpre Hex Hrel Hin).
  - intros e fuel parsed w entry output_fp text Hp <- Hgo Hentry Hexp.
    exact (main_raises fuel parsed w entry root output_fp text e
             Hp Hgo Hentry Hexp).
Qed.

(** ** The overwrite check *)

Lemma merge_trace (fuel : nat) (entry parent output_fp : Path)
  (w w' : World) (o : outcome) :
  merge fuel entry parent output_fp w = (o, w') ->
  exists evs, trace w' = trace w ++ evs.
Proof.
  unfold merge.
  destruct (read_text (files w) entry) as [text|e];
    [|intros [= <- <-]; exists []; now rewrite app_nil_r].
  destruct (expand _ _ _ _ _ _) as [out|e];
    [|intros [= <- <-]; exists []; now rewrite app_nil_r].
  destruct (write_text _ _ _) as [files'|e];
    [|intros [= <- <-]; exists []; now rewrite app_nil_r].
  intros [= <- <-]. cbn [print trace files stdin]. rewrite <- app_assoc.
  eauto.
Qed.

(** C9: when the output path exists the first thing the run does is to
    prompt; unless the answer is exactly [Y] the run ends with a status
    other than zero and the files are as they were.  An answer other than
    [Y] exits with [-1] after the message; no answer at all is the
    uncaught end-of-input error. *)
Theorem overwrite_needs_confirmation (fuel : nat) (parsed : Args) (w : World)
  (entry parent output_fp : Path) :
  parse_args parsed = (entry, parent, output_fp) ->
  exists_ (files w) output_fp = true ->
  exists o w' evs,
    main fuel parsed w = (o, w')
    /\ trace w' = trace w ++ Prompted (overwrite_prompt output_fp) :: evs
    /\ (stdin w <> Some "Y" ->
        exit_status o <> 0%Z
        /\ files w' = files w
        /\ ~ In (Written output_fp) evs
        /\ forall response, stdin w = Some response ->
             o = SystemExit (-1) /\ evs = [Printed "Aborted."]).
Proof.
  intros Hp Hex. unfold main. rewrite Hp, Hex. unfold input.
  destruct (stdin w) as [response|] eqn:Hin.
  - destruct (String.eqb_spec response "Y") as [->|Hne]; cbn [negb].
    + destruct (merge fuel entry parent output_fp _) as [o w'] eqn:Hm.
      destruct (merge_trace _ _ _ _ _ _ _ Hm) as [evs Hevs].
      cbn [trace] in Hevs. rewrite <- app_assoc in Hevs.
      exists o, w', evs. split; [reflexivity | split; [exact Hevs|]].
      intros H. contradiction.
    + do 3 eexists. split; [reflexivity|]. cbn [print trace files].
      rewrite <- app_assoc. split; [reflexivity|]. intros _.
      split; [discriminate|]. split; [reflexivity|]. split.
      * intros [H|[]]. discriminate.
      * intros r [= <-]. auto.
  - do 3 eexists. split; [reflexivity|]. cbn [trace files].
    split; [reflexivity|]. intros _.
    split; [discriminate|]. split; [reflexivity|]. split.
    + intros [].
    + discriminate.
Qed.

(** ** Relative paths *)

Lemma strip_app (xs ys : list string) : pathlib.strip xs (xs ++ ys) = Some ys.
Proof.
  induction xs as [|x xs IH]; [reflexivity|].
  cbn [app pathlib.strip]. now rewrite String.eqb_refl.
Qed.

Lemma of_string_relative (key : string) :
  Str.startswith key "/" = false -> anchor (pathlib.of_string key) = "".
Proof.
  unfold pathlib.of_string, pathlib.splitroot, pathlib.sep.
  destruct key as [|c key]; [reflexivity|].
  unfold Str.startswith. cbn [String.prefix].
  destruct (Ascii.eqb_spec c "/") as [->|Hne].
  - destruct (ascii_dec "/" "/"); [|contradiction].
    destruct key; discriminate.
  - reflexivity.
Qed.

Lemma relative_to_truediv (base : Path) (key : string) :
  anchor (pathlib.of_string key) = "" ->
  pathlib.relative_to (base // key) base
  = Some (mkPath "" (tail (pathlib.of_string key))).
Proof.
  intros H. unfold pathlib.truediv, pathlib.relative_to. rewrite H.
  cbn [String.eqb anchor tail]. now rewrite String.eqb_refl, strip_app.
Qed.

Lemma startswith_app_tex (stem : string) :
  Str.startswith stem "/" = false ->
  Str.startswith (stem ++ ".tex") "/" = false.
Proof.
  destruct stem as [|a stem]; [reflexivity|].
  unfold Str.startswith. cbn [append String.prefix].
  destruct (ascii_dec "/" a); [|reflexivity].
  destruct stem; discriminate.
Qed.

(** C10, as the code has it: [relative_to] compares paths component by
    component and never looks at the files.  A directive whose target was
    read but does not begin with the components of the project root (a
    stem beginning with a slash) fails with the relativization error
    before any marker is produced; a stem that does not begin with a slash
    (one beginning with two dots included), resolved against the project
    root, never fails so: the marker names it as written. *)
Theorem relativization_is_lexical (fs : filesystem) (root : Path) (fuel : nat)
  (parent : Path) (pre : list string) (line : string) (post : list string)
  (depth : nat) (body : list string) (target : Path) (out_pre : list string) :
  extract_ifany fs root parent line = Ok (Some (body, target)) ->
  expand fs root (S fuel) parent pre depth = Ok out_pre ->
  (pathlib.relative_to target root = None ->
   expand fs root (S fuel) parent (pre ++ line :: post) depth
   = Raise (ValueError target root))
  /\ (forall stem, Str.startswith stem "/" = false ->
        pathlib.relative_to (root // (stem ++ ".tex")%string) root
        = Some (mkPath "" (tail (pathlib.of_string (stem ++ ".tex")%string)))).
Proof.
  intros Hex Hpre. split.
  - intros Hrel. rewrite expand_S, expand_loop_app, <- expand_S, Hpre.
    cbn [bind]. rewrite expand_loop_cons, Hex. cbn [bind].
    unfold relative_to_root. rewrite Hrel. reflexivity.
  - intros stem Hstem. apply relative_to_truediv, of_string_relative.
    now apply startswith_app_tex.
Qed.

(** ** The theorems at work on the small project *)

Lemma expand_brackets_inclusion_witness :
  extract_ifany Project.fs Project.proj Project.proj "\input{sub/b}"
  = Ok (Some (["b1"; "\subfile{c}"; "b2"], pathlib.of_string "/proj/sub/b.tex"))
  /\ exists rel out_pre out_body out_post,
       pathlib.relative_to (pathlib.of_string "/proj/sub/b.tex") Project.proj
       = Some rel
       /\ expand Project.fs Project.proj 3 Project.proj ["intro"] 0 = Ok out_pre
       /\ expand Project.fs Project.proj 2
            (pathlib.parent (pathlib.of_string "/proj/sub/b.tex"))
            ["b1"; "\subfile{c}"; "b2"] (0 + 1) = Ok out_body
       /\ expand Project.fs Project.proj 3 Project.proj ["outro"] 0 = Ok out_post
       /\ ["intro"; "% > sub/b.tex > : texpack"; "b1";
           "% >> sub/c.tex >> : texpack"; "c1"; "% << sub/c.tex << : texpack";
           "b2"; "% < sub/b.tex < : texpack"; "outro"]
          = out_pre
            ++ [("% " ++ Str.times ">" (0 + 1) ++ " " ++ pathlib.str rel
                 ++ " " ++ Str.times ">" (0 + 1) ++ " : texpack")%string]
            ++ out_body
            ++ [("% " ++ Str.times "<" (0 + 1) ++ " " ++ pathlib.str rel
                 ++ " " ++ Str.times "<" (0 + 1) ++ " : texpack")%string]
            ++ out_post.
Proof.
  split; [vm_compute; reflexivity|].
  refine (proj1 (expand_brackets_inclusion Project.fs Project.proj 2
                   Project.proj ["intro"] "\input{sub/b}" ["outro"] 0
                   ["b1"; "\subfile{c}"; "b2"]
                   (pathlib.of_string "/proj/sub/b.tex") _ _) _);
    vm_compute; reflexivity.
Defined.

Lemma subfile_extract_body_witness :
  extract_ifany Project.fs Project.proj (pathlib.of_string "/proj/sub")
    "\subfile{c}"
  = Ok (Some (["c1"], pathlib.of_string "/proj/sub/c.tex")).
Proof.
  refine (proj1 (subfile_extract_body Project.fs Project.proj
                   (pathlib.of_string "/proj/sub") "\subfile{c}" "c"
                   (Project.text_of ["pre"; "\begin{document}"; "c1";
                                     "\end{document}"; "post"]) _ _));
    vm_compute; reflexivity.
Defined.

Lemma input_extract_whole_file_witness :
  extract_ifany Project.fs Project.proj (pathlib.of_string "/proj/sub")
    "\input{sub/b}"
  = Ok (Some (["b1"; "\subfile{c}"; "b2"], pathlib.of_string "/proj/sub/b.tex")).
Proof.
  refine (proj1 (input_extract_whole_file Project.fs Project.proj
                   (pathlib.of_string "/proj/sub") "\input{sub/b}" "sub/b"
                   (Project.text_of ["b1"; "\subfile{c}"; "b2"]) _ _));
    vm_compute; reflexivity.
Defined.

Lemma expand_identity_witness :
  expand Project.fs Project.proj 1 (pathlib.of_string "/proj/sub")
    ["plain"; " \input{sub/b}"; "\input{unclosed"; "% \subfile{c}"] 7
  = Ok ["plain"; " \input{sub/b}"; "\input{unclosed"; "% \subfile{c}"].
Proof.
  apply (expand_identity Project.fs Project.proj 0).
  repeat constructor.
Defined.

Lemma matches_from_line_start_witness :
  InputExtractor.matches " \input{sub/b}" = false
  /\ SubfileExtractor.matches " \input{sub/b}" = false
  /\ forall fs root fuel parent depth,
       expand fs root (S fuel) parent [" \input{sub/b}"] depth
       = Ok [" \input{sub/b}"].
Proof.
  apply (proj2 (proj2 (matches_from_line_start " \input{sub/b}")));
    reflexivity.
Defined.

Lemma unreadable_target_aborts_witness :
  exists w',
    main 3 {| entry_arg := "/proj/broken.tex"; output_arg := None |}
      (Project.world None)
    = (Uncaught (ReadError (pathlib.of_string "/proj/missing.tex")), w')
    /\ files w' = files (Project.world None).
Proof.
  apply (unreadable_target_aborts 3
           {| entry_arg := "/proj/broken.tex"; output_arg := None |}
           (Project.world None)
           (pathlib.of_string "/proj/broken.tex") Project.proj
           (pathlib.of_string "/proj/merged_broken.tex")
           (Project.text_of ["fine"; "\input{sub/b}"; "\subfile{missing}"])).
  - reflexivity.
  - left. reflexivity.
  - reflexivity.
  - apply (unreadable_later _ _ 2 _ "fine" _ 0 ["fine"]);
      [reflexivity|].
    apply (unreadable_later _ _ 2 _ "\input{sub/b}" _ 0
             ["% > sub/b.tex > : texpack"; "b1";
              "% >> sub/c.tex >> : texpack"; "c1";
              "% << sub/c.tex << : texpack"; "b2";
              "% < sub/b.tex < : texpack"]);
      [vm_compute; reflexivity|].
    apply unreadable_here; [|reflexivity].
    right. exists "missing". split; reflexivity.
Defined.

Lemma extraction_takes_any_argument_witness :
  (re.match_ InputExtractor.pat "\input{{a}.b}" = Some "{a}.b"
   /\ re.match_ SubfileExtractor.pat "\subfile{{a}.b}" = Some "{a}.b")
  /\ (exists stem rest',
        re.match_ InputExtractor.pat "\input{sub/b} % c" = Some stem
        /\ "\input{sub/b} % c" = ("\input{" ++ stem ++ "}" ++ rest')%string
        /\ Str.mem Str.nl stem = false
        /\ String.length "sub/b" <= String.length stem
        /\ (Str.mem "}" " % c" = false -> stem = "sub/b")
        /\ extract_ifany Project.fs Project.proj Project.proj "\input{sub/b} % c"
           = (text <- read_text Project.fs
                        (Project.proj // (stem ++ ".tex")%string) ;;
              Ok (Some (Str.split Str.nl text,
                        Project.proj // (stem ++ ".tex")%string))))
  /\ (exists w',
        main 3 {| entry_arg := "/proj/broken.tex"; output_arg := None |}
          (Project.world None)
        = (Uncaught (ReadError (pathlib.of_string "/proj/missing.tex")), w')
        /\ files w' = Project.fs).
Proof.
  split; [|split].
  - apply (proj1 (proj2 (proj2 (extraction_takes_any_argument
                                  Project.fs Project.proj Project.proj "")))
             "{a}.b").
    reflexivity.
  - apply (proj1 (proj2 (proj2 (proj2 (proj2
             (extraction_takes_any_argument Project.fs Project.proj
                Project.proj "\input{sub/b} % c")))))
             "sub/b" " % c"); reflexivity.
  - apply (proj2 (proj2 (proj2 (proj2 (proj2 (proj2 (proj2 (proj2
             (extraction_takes_any_argument Project.fs Project.proj
                Project.proj ""))))))))
             (ReadError (pathlib.of_string "/proj/missing.tex")) 3
             {| entry_arg := "/proj/broken.tex"; output_arg := None |}
             (Project.world None) (pathlib.of_string "/proj/broken.tex")
             (pathlib.of_string "/proj/merged_broken.tex")
             (Project.text_of ["fine"; "\input{sub/b}"; "\subfile{missing}"]));
      [reflexivity | reflexivity | left; reflexivity | reflexivity
      | vm_compute; reflexivity].
Defined.

Lemma overwrite_needs_confirmation_witness :
  exists o w' evs,
    main 3 {| entry_arg := "/proj/main.tex"; output_arg := None |}
      (Project.world (Some "y")) = (o, w')
    /\ trace w'
       = trace (Project.world (Some "y"))
         ++ Prompted (overwrite_prompt (pathlib.of_string "/proj/merged_main.tex"))
            :: evs
    /\ (stdin (Project.world (Some "y")) <> Some "Y" ->
        exit_status o <> 0%Z
        /\ files w' = files (Project.world (Some "y"))
        /\ ~ In (Written (pathlib.of_string "/proj/merged_main.tex")) evs
        /\ forall response, stdin (Project.world (Some "y")) = Some response ->
             o = SystemExit (-1) /\ evs = [Printed "Aborted."]).
Proof.
  apply (overwrite_needs_confirmation 3
           {| entry_arg := "/proj/main.tex"; output_arg := None |}
           (Project.world (Some "y"))
           (pathlib.of_string "/proj/main.tex") Project.proj
           (pathlib.of_string "/proj/merged_main.tex"));
    reflexivity.
Defined.

Lemma relativization_is_lexical_witness :
  expand Project.fs Project.proj 2 Project.proj
    (["intro"] ++ "\input{/etc/x}" :: ["outro"]) 0
  = Raise (ValueError (pathlib.of_string "/etc/x.tex") Project.proj).
Proof.
  refine (proj1 (relativization_is_lexical Project.fs Project.proj 1
                   Project.proj ["intro"] "\input{/etc/x}" ["outro"] 0
                   ["secret"] (pathlib.of_string "/etc/x.tex") ["intro"] _ _) _);
    vm_compute; reflexivity.
Defined.

(** A line with the prefix whose braces hold no bare stem (nested braces,
    an extension) is extracted all the same, and expanded. *)
Lemma malformed_argument_counterexample :
  Str.startswith "\input{{a}.b}" "\input{" = true
  /\ InputExtractor.matches "\input{{a}.b}" = true
  /\ InputExtractor.extract Project.fs Project.proj Project.proj "\input{{a}.b}"
     = Ok (["x"], pathlib.of_string "/proj/{a}.b.tex")
  /\ expand Project.fs Project.proj 2 Project.proj ["\input{{a}.b}"] 0
     = Ok ["% > {a}.b.tex > : texpack"; "x"; "% < {a}.b.tex < : texpack"].
Proof. repeat split; vm_compute; reflexivity. Qed.

(** A document-body include with a stem beginning with two dots, issued
    from the project root: the target is read and the expansion succeeds. *)
Lemma dotdot_stem_counterexample :
  read_text Project.fs (Project.proj // "../x.tex")
  = Ok (Project.text_of ["\begin{document}"; "hello"; "\end{document}"])
  /\ expand Project.fs Project.proj 2 Project.proj ["\subfile{../x}"] 0
     = Ok ["% > ../x.tex > : texpack"; "hello"; "% < ../x.tex < : texpack"].
Proof. split; vm_compute; reflexivity. Qed.

(** * Further properties of the expander *)

Section ExpandMore.

Variable fs : filesystem.
Variable root : Path.

Lemma extract_ifany_none_plain (parent : Path) (line : string) :
  extract_ifany fs root parent line = Ok None -> plain line.
Proof.
  destruct (extract_ifany_cases fs root parent line)
    as [[Hi [Hs _]]|[target [_ [[body [_ H]]|[_ H]]]]];
    rewrite ?H; [split; assumption | discriminate | discriminate].
Qed.

Lemma extract_ifany_raise (parent : Path) (line : string) (e : error) :
  extract_ifany fs root parent line = Raise e -> exists t, e = ReadError t.
Proof.
  destruct (extract_ifany_cases fs root parent line)
    as [[_ [_ H]]|[target [_ [[body [_ H]]|[_ H]]]]];
    rewrite H; [discriminate | discriminate |].
  intros [= <-]. eauto.
Qed.

Lemma marker_plain (depth : nat) (rel : string) :
  plain (opening depth rel) /\ plain (closing depth rel).
Proof. repeat split. Qed.

(** The loop keeps what the recursive call keeps: lines no extractor
    matches. *)
Lemma expand_loop_plain
  (rec : Path -> list string -> nat -> result (list string))
  (Hrec : forall p l d out, rec p l d = Ok out -> Forall plain out)
  (parent : Path) (depth : nat) (lines out : list string) :
  expand_loop fs root rec parent depth [] lines = Ok out -> Forall plain out.
Proof.
  revert out. induction lines as [|line rest IH]; intros out.
  - intros [= <-]. constructor.
  - rewrite expand_loop_cons.
    destruct (extract_ifany fs root parent line) as [[[body target]|]|e] eqn:Hex;
      cbn [bind]; [| |discriminate].
    + destruct (relative_to_root root target) as [rel|e]; cbn [bind];
        [|discriminate].
      destruct (rec _ body (depth + 1)) as [inner|e] eqn:Hin; cbn [bind];
        [|discriminate].
      destruct (expand_loop fs root rec parent depth [] rest) as [tl|e];
        cbn [bind]; [|discriminate].
      intros [= <-]. constructor; [apply marker_plain|].
      apply Forall_app. split; [exact (Hrec _ _ _ _ Hin)|].
      constructor; [apply marker_plain | now apply IH].
    + destruct (expand_loop fs root rec parent depth [] rest) as [tl|e];
        cbn [bind]; [|discriminate].
      intros [= <-]. constructor; [|now apply IH].
      exact (extract_ifany_none_plain _ _ Hex).
Qed.

Lemma expand_plain_output (fuel : nat) (parent : Path) (lines : list string)
  (depth : nat) (out : list string) :
  expand fs root fuel parent lines depth = Ok out -> Forall plain out.
Proof.
  revert parent lines depth out. induction fuel as [|fuel IH];
    intros parent lines depth out; [discriminate|].
  rewrite expand_S. apply expand_loop_plain. exact IH.
Qed.

(** The loop raises what the extraction, the relativization or the
    recursive call raise. *)
Lemma expand_loop_raise
  (rec : Path -> list string -> nat -> result (list string))
  (P : error -> Prop)
  (Hread : forall t, P (ReadError t))
  (Hvalue : forall t, P (ValueError t root))
  (Hrec : forall p l d e, rec p l d = Raise e -> P e)
  (parent : Path) (depth : nat) (lines : list string) (e : error) :
  expand_loop fs root rec parent depth [] lines = Raise e -> P e.
Proof.
  induction lines as [|line rest IH]; [discriminate|].
  rewrite expand_loop_cons.
  destruct (extract_ifany fs root parent line) as [[[body target]|]|e0] eqn:Hex;
    cbn [bind].
  - unfold relative_to_root.
    destruct (pathlib.relative_to target root) as [rel|]; cbn [bind];
      [|intros [= <-]; apply Hvalue].
    destruct (rec _ body (depth + 1)) as [inner|e0] eqn:Hin; cbn [bind];
      [|intros [= <-]; exact (Hrec _ _ _ _ Hin)].
    destruct (expand_loop fs root rec parent depth [] rest) as [tl|e0];
      cbn [bind]; [discriminate|].
    intros [= <-]. now apply IH.
  - destruct (expand_loop fs root rec parent depth [] rest) as [tl|e0];
      cbn [bind]; [discriminate|].
    intros [= <-]. now apply IH.
  - intros [= <-]. destruct (extract_ifany_raise _ _ _ Hex) as [t ->].
    apply Hread.
Qed.

(** With a deeper stack the loop does the same, unless the stack was
    what failed. *)
Lemma expand_loop_mono
  (rec1 rec2 : Path -> list string -> nat -> result (list string))
  (Hrec : forall p l d r, rec1 p l d = r -> r <> Raise RecursionError ->
                          rec2 p l d = r)
  (parent : Path) (depth : nat) (lines : list string)
  (r : result (list string)) :
  expand_loop fs root rec1 parent depth [] lines = r ->
  r <> Raise RecursionError ->
  expand_loop fs root rec2 parent depth [] lines = r.
Proof.
  revert r. induction lines as [|line rest IH]; intros r; [auto|].
  rewrite !expand_loop_cons.
  destruct (extract_ifany fs root parent line) as [[[body target]|]|e0];
    cbn [bind]; [| |auto].
  - destruct (relative_to_root root target) as [rel|e0]; cbn [bind]; [|auto].
    destruct (rec1 _ body (depth + 1)) as [inner|e0] eqn:Hin; cbn [bind].
    + rewrite (Hrec _ _ _ _ Hin) by discriminate. cbn [bind].
      destruct (expand_loop fs root rec1 parent depth [] rest) as [tl|e0] eqn:Hr;
        cbn [bind]; intros <- Hne.
      * rewrite (IH _ eq_refl) by discriminate. reflexivity.
      * rewrite (IH _ eq_refl) by exact Hne. reflexivity.
    + intros <- Hne. rewrite (Hrec _ _ _ _ Hin) by exact Hne. reflexivity.
  - destruct (expand_loop fs root rec1 parent depth [] rest) as [tl|e0] eqn:Hr;
      cbn [bind]; intros <- Hne.
    + rewrite (IH _ eq_refl) by discriminate. reflexivity.
    + rewrite (IH _ eq_refl) by exact Hne. reflexivity.
Qed.

Lemma expand_mono_step (fuel : nat) (parent : Path) (lines : list string)
  (depth : nat) (r : result (list string)) :
  expand fs root fuel parent lines depth = r ->
  r <> Raise RecursionError ->
  expand fs root (S fuel) parent lines depth = r.
Proof.
  revert parent lines depth r. induction fuel as [|fuel IH];
    intros parent lines depth r.
  - intros <- H. now contradiction H.
  - rewrite (expand_S fs root (S fuel)), (expand_S fs root fuel).
    apply expand_loop_mono. exact IH.
Qed.

End ExpandMore.

(** X1: the expansion of a concatenation is the concatenation of the
    expansions, the first failure in document order being the failure of
    the whole. *)
Theorem expand_app (fs : filesystem) (root : Path) (fuel : nat) (parent : Path)
  (l1 l2 : list string) (depth : nat) :
  expand fs root (S fuel) parent (l1 ++ l2) depth =
  (o1 <- expand fs root (S fuel) parent l1 depth ;;
   o2 <- expand fs root (S fuel) parent l2 depth ;;
   Ok (o1 ++ o2)).
Proof. rewrite !expand_S. apply expand_loop_app. Qed.

(** X2: what a call of [expand] returns or raises with some stack it
    returns or raises with every deeper stack, unless what it raised was
    the exhaustion of the stack. *)
Theorem expand_deeper_stack (fs : filesystem) (root : Path) (fuel more : nat)
  (parent : Path) (lines : list string) (depth : nat)
  (r : result (list string)) :
  expand fs root fuel parent lines depth = r ->
  r <> Raise RecursionError ->
  expand fs root (fuel + more) parent lines depth = r.
Proof.
  intros Hr Hne. induction more as [|more IH].
  - now rewrite Nat.add_0_r.
  - rewrite Nat.add_succ_r. now apply expand_mono_step.
Qed.

(** X3: the output of an expansion holds no line an extractor matches, so
    expanding it again, from any directory and at any depth, returns it
    unchanged. *)
Theorem expand_idempotent (fs : filesystem) (root : Path) (fuel : nat)
  (parent : Path) (lines : list string) (depth : nat) (out : list string) :
  expand fs root fuel parent lines depth = Ok out ->
  Forall plain out
  /\ forall fs' root' fuel' parent' depth',
       expand fs' root' (S fuel') parent' out depth' = Ok out.
Proof.
  intros H. apply expand_plain_output in H. split; [exact H|].
  intros fs' root' fuel' parent' depth'.
  induction H as [|line rest [Hi Hs] _ IH]; [reflexivity|].
  now rewrite (expand_plain_line fs' root' fuel' parent' line rest depth' Hi Hs), IH.
Qed.

(** X4: an expansion fails only of a read, of a relativization against
    the project root or of the exhausted stack. *)
Theorem expand_failures (fs : filesystem) (root : Path) (fuel : nat)
  (parent : Path) (lines : list string) (depth : nat) (e : error) :
  expand fs root fuel parent lines depth = Raise e ->
  (exists t, e = ReadError t)
  \/ (exists t, e = ValueError t root)
  \/ e = RecursionError.
Proof.
  revert parent lines depth e. induction fuel as [|fuel IH];
    intros parent lines depth e.
  - intros [= <-]. auto.
  - rewrite expand_S.
    apply (expand_loop_raise fs root (expand fs root fuel)
             (fun e => (exists t, e = ReadError t)
                       \/ (exists t, e = ValueError t root)
                       \/ e = RecursionError)); eauto.
Qed.

(** * Further properties of the extractors *)

(** X5: the stem either pattern takes is the longest the line allows: it
    runs to the last closing brace before the first newline, over any
    closing brace before it. *)
Theorem stem_is_longest (line g stem rest : string) :
  re.match_ InputExtractor.pat line = Some g
  \/ re.match_ SubfileExtractor.pat line = Some g ->
  line = ("\input{" ++ stem ++ "}" ++ rest)%string
  \/ line = ("\subfile{" ++ stem ++ "}" ++ rest)%string ->
  Str.mem Str.nl stem = false ->
  String.length stem <= String.length g
  /\ exists rest', (stem ++ "}" ++ rest)%string = (g ++ "}" ++ rest')%string.
Proof.
  intros Hm Hline HS.
  assert (Hb : re.match_ braced (stem ++ String "}" rest)%string = Some g).
  { destruct Hm as [Hm|Hm].
    - rewrite input_pat_eq in Hm.
      destruct (match_lit_inv _ _ _ _ Hm) as [tl [Htl Hb]].
      destruct Hline as [->| ->]; [|discriminate].
      injection Htl as <-. exact Hb.
    - rewrite subfile_pat_eq in Hm.
      destruct (match_lit_inv _ _ _ _ Hm) as [tl [Htl Hb]].
      destruct Hline as [->| ->]; [discriminate|].
      injection Htl as <-. exact Hb. }
  split.
  - exact (braced_longest _ _ _ _ Hb eq_refl HS).
  - destruct (braced_sound _ _ Hb) as [rest' [H _]]. exists rest'. exact H.
Qed.

(** X6: what follows the last closing brace on the line of a directive
    plays no part: the line is expanded as the bare directive is. *)
Theorem trailing_text_dropped (fs : filesystem) (root : Path) (fuel : nat)
  (parent : Path) (stem rest : string) (depth : nat) :
  Str.mem Str.nl stem = false ->
  Str.mem "}" rest = false ->
  expand fs root fuel parent ["\input{" ++ stem ++ "}" ++ rest]%string depth
  = expand fs root fuel parent ["\input{" ++ stem ++ "}"]%string depth
  /\ expand fs root fuel parent ["\subfile{" ++ stem ++ "}" ++ rest]%string depth
     = expand fs root fuel parent ["\subfile{" ++ stem ++ "}"]%string depth.
Proof.
  intros HS Hrest.
  assert (Hi : re.match_ InputExtractor.pat ("\input{" ++ stem ++ "}" ++ rest)%string
               = Some stem)
    by exact (directive_stem "\input{" stem rest HS Hrest).
  assert (Hi0 : re.match_ InputExtractor.pat ("\input{" ++ stem ++ "}")%string
                = Some stem)
    by exact (directive_stem "\input{" stem "" HS eq_refl).
  assert (Hs : re.match_ SubfileExtractor.pat ("\subfile{" ++ stem ++ "}" ++ rest)%string
               = Some stem)
    by exact (directive_stem "\subfile{" stem rest HS Hrest).
  assert (Hs0 : re.match_ SubfileExtractor.pat ("\subfile{" ++ stem ++ "}")%string
                = Some stem)
    by exact (directive_stem "\subfile{" stem "" HS eq_refl).
  destruct fuel as [|fuel]; [split; reflexivity|].
  rewrite !expand_S, !expand_loop_cons. split.
  - rewrite (extract_ifany_input fs root parent _ stem Hi),
      (extract_ifany_input fs root parent _ stem Hi0).
    destruct (read_text fs _); reflexivity.
  - rewrite (extract_ifany_subfile fs root parent _ stem Hs),
      (extract_ifany_subfile fs root parent _ stem Hs0).
    destruct (read_text fs _); reflexivity.
Qed.

(** ** The body of a document, once more *)

Lemma in_body_lines_app_off (pre rest : list string) :
  Forall (fun l => Str.startswith l "\begin{document}" = false) pre ->
  in_body_lines false (pre ++ rest) = in_body_lines false rest.
Proof.
  induction 1 as [|l pre Hl _ IH]; [reflexivity|].
  cbn [app in_body_lines]. rewrite Hl.
  destruct (Str.endswith l "\end{document}"); exact IH.
Qed.

Lemma in_body_lines_middle (mid rest : list string) :
  Forall (fun l => Str.startswith l "\begin{document}" = false
                   /\ Str.endswith l "\end{document}" = false) mid ->
  in_body_lines true (mid ++ rest) = mid ++ in_body_lines true rest.
Proof.
  induction 1 as [|l mid [Hb He] _ IH]; [reflexivity|].
  cbn [app in_body_lines]. now rewrite Hb, He, IH.
Qed.

Lemma in_body_lines_markers (mode : bool) (lines : list string) :
  Forall (fun l => Str.startswith l "\begin{document}" = false
                   /\ Str.endswith l "\end{document}" = false)
    (in_body_lines mode lines).
Proof.
  revert mode. induction lines as [|l lines IH]; intros mode; [constructor|].
  cbn [in_body_lines].
  destruct (Str.startswith l "\begin{document}") eqn:Hb; [apply IH|].
  destruct (Str.endswith l "\end{document}") eqn:He; [apply IH|].
  destruct mode; [|apply IH]. constructor; [split; assumption | apply IH].
Qed.

(** X7: of a target with one document, its begin line after lines that
    begin none, its end line after lines that are neither, the
    document-body extractor returns exactly the lines between the two,
    whatever follows the end line short of another begin line. *)
Theorem subfile_extract_between (fs : filesystem) (parent root : Path)
  (line stem text b e : string) (pre mid post : list string) :
  re.match_ SubfileExtractor.pat line = Some stem ->
  read_text fs (parent // (stem ++ ".tex")%string) = Ok text ->
  Str.split Str.nl text = pre ++ b :: mid ++ e :: post ->
  Forall (fun l => Str.startswith l "\begin{document}" = false) pre ->
  Str.startswith b "\begin{document}" = true ->
  Forall (fun l => Str.startswith l "\begin{document}" = false
                   /\ Str.endswith l "\end{document}" = false) mid ->
  Str.startswith e "\begin{document}" = false ->
  Str.endswith e "\end{document}" = true ->
  Forall (fun l => Str.startswith l "\begin{document}" = false) post ->
  SubfileExtractor.extract fs parent root line
  = Ok (mid, parent // (stem ++ ".tex")%string).
Proof.
  intros Hm Hr Hsplit Hpre Hb Hmid Heb Hee Hpost.
  unfold SubfileExtractor.extract. rewrite Hm. cbn [group1 bind].
  rewrite Hr. cbn [bind]. rewrite scan_fold, Hsplit. cbn [app].
  rewrite (in_body_lines_app_off pre _ Hpre).
  cbn [in_body_lines]. rewrite Hb.
  rewrite (in_body_lines_middle mid _ Hmid).
  cbn [in_body_lines]. rewrite Heb, Hee.
  rewrite (in_body_lines_no_begin post Hpost). now rewrite app_nil_r.
Qed.

(** X8: no line the document-body extractor returns begins with the begin
    marker or ends with the end marker. *)
Theorem subfile_body_has_no_marker (fs : filesystem) (parent root : Path)
  (line : string) (body : list string) (target : Path) :
  SubfileExtractor.extract fs parent root line = Ok (body, target) ->
  Forall (fun l => Str.startswith l "\begin{document}" = false
                   /\ Str.endswith l "\end{document}" = false) body.
Proof.
  unfold SubfileExtractor.extract.
  destruct (re.match_ SubfileExtractor.pat line) as [stem|]; cbn [group1 bind];
    [|discriminate].
  destruct (read_text fs _) as [text|e]; cbn [bind]; [|discriminate].
  intros [= <- _]. rewrite scan_fold. apply in_body_lines_markers.
Qed.

(** * Inclusion cycles *)

(** X9: a file that includes itself by the whole-file directive never
    expands: whatever the stack, it is exhausted. *)
Theorem self_inclusion_exhausts_stack (fs : filesystem) (root : Path)
  (stem text : string) (pre post : list string) :
  Str.mem Str.nl stem = false ->
  Str.startswith stem "/" = false ->
  read_text fs (root // (stem ++ ".tex")%string) = Ok text ->
  Str.split Str.nl text = pre ++ ("\input{" ++ stem ++ "}")%string :: post ->
  Forall plain pre ->
  forall fuel parent depth,
    expand fs root fuel parent ["\input{" ++ stem ++ "}"]%string depth
    = Raise RecursionError.
Proof.
  intros HS Hrel Hread Hsplit Hpre.
  assert (Hstem : re.match_ InputExtractor.pat ("\input{" ++ stem ++ "}")%string
                  = Some stem)
    by exact (directive_stem "\input{" stem "" HS eq_refl).
  assert (Hself : forall fuel parent depth,
             expand fs root fuel parent (Str.split Str.nl text) depth
             = Raise RecursionError).
  { induction fuel as [|fuel IH]; intros parent depth; [reflexivity|].
    rewrite Hsplit, expand_S, expand_loop_app, <- expand_S.
    assert (Hp : expand fs root (S fuel) parent pre depth = Ok pre).
    { clear -Hpre. induction Hpre as [|l pre [Hi Hs] _ IHp]; [reflexivity|].
      now rewrite (expand_plain_line fs root fuel parent l pre depth Hi Hs), IHp. }
    rewrite Hp. cbn [bind]. rewrite expand_loop_cons.
    rewrite (extract_ifany_input fs root parent _ stem Hstem), Hread.
    cbn [bind]. unfold relative_to_root.
    rewrite (relative_to_truediv root _
               (of_string_relative _ (startswith_app_tex stem Hrel))).
    cbn [bind]. now rewrite IH. }
  intros fuel parent depth. destruct fuel as [|fuel]; [reflexivity|].
  rewrite expand_S, expand_loop_cons.
  rewrite (extract_ifany_input fs root parent _ stem Hstem), Hread.
  cbn [bind]. unfold relative_to_root.
  rewrite (relative_to_truediv root _
             (of_string_relative _ (startswith_app_tex stem Hrel))).
  cbn [bind]. now rewrite Hself.
Qed.

(** * Paths *)

Lemma split_no_sep (c : ascii) (s : string) :
  Forall (fun x => Str.mem c x = false) (Str.split c s).
Proof.
  induction s as [|a s IH]; cbn [Str.split].
  - repeat constructor.
  - destruct (a =? c)%char eqn:Hac.
    + constructor; [reflexivity | exact IH].
    + destruct (Str.split c s) as [|l ls]; [repeat constructor; simpl; now rewrite Hac|].
      inversion IH as [|? ? Hl Hls]; subst.
      constructor; [simpl; now rewrite Hac, Hl | exact Hls].
Qed.

Lemma split_whole (c : ascii) (s : string) :
  Str.mem c s = false -> Str.split c s = [s].
Proof.
  induction s as [|a s IH]; [reflexivity|].
  simpl. intros H. apply orb_false_iff in H. destruct H as [Ha Hs].
  now rewrite Ha, (IH Hs).
Qed.

Lemma split_app_sep (c : ascii) (x y : string) :
  Str.mem c x = false ->
  Str.split c (x ++ String c y)%string = x :: Str.split c y.
Proof.
  induction x as [|a x IH]; simpl; intros H.
  - now rewrite Ascii.eqb_refl.
  - apply orb_false_iff in H. destruct H as [Ha Hx].
    now rewrite Ha, (IH Hx).
Qed.

(** Joining lines and splitting the text gives the lines back, when
    there is a line and no line holds the separator. *)
Lemma split_join (c : ascii) (ls : list string) :
  ls <> [] -> Forall (fun x => Str.mem c x = false) ls ->
  Str.split c (Str.join (String c "") ls) = ls.
Proof.
  induction ls as [|x ls IH]; [contradiction|]. intros _ H.
  inversion H as [|? ? Hx Hls]; subst.
  destruct ls as [|y ls].
  - now apply split_whole.
  - rewrite join_cons by discriminate. cbn [append].
    rewrite (split_app_sep c x _ Hx), IH; [reflexivity | discriminate | exact Hls].
Qed.

Lemma filter_keep_components (t : list string) :
  Forall component t -> filter pathlib.keep t = t.
Proof.
  induction 1 as [|x t [Hk _] _ IH]; [reflexivity|].
  cbn [filter]. now rewrite Hk, IH.
Qed.

Lemma components_filter (l : list string) :
  Forall (fun x => Str.mem pathlib.sep x = false) l ->
  Forall component (filter pathlib.keep l).
Proof.
  induction 1 as [|x l Hx _ IH]; [constructor|].
  cbn [filter]. destruct (pathlib.keep x) eqn:Hk; [|exact IH].
  constructor; [split; assumption | exact IH].
Qed.

Lemma splitroot_anchor (s : string) :
  fst (pathlib.splitroot s) = ""
  \/ fst (pathlib.splitroot s) = "/"
  \/ fst (pathlib.splitroot s) = "//".
Proof.
  unfold pathlib.splitroot.
  destruct s as [|c0 [|c1 [|c2 r]]]; cbn [fst];
    repeat match goal with
           | |- context [if ?b then _ else _] => destruct b
           end; cbn [fst]; auto.
Qed.

Lemma of_string_normal (s : string) : normal (pathlib.of_string s).
Proof.
  unfold pathlib.of_string.
  pose proof (splitroot_anchor s) as Ha.
  destruct (pathlib.splitroot s) as [a rel]. split; [exact Ha|].
  apply components_filter, split_no_sep.
Qed.

Lemma truediv_normal (p : Path) (key : string) :
  normal p -> normal (p // key).
Proof.
  intros [Ha Ht]. unfold pathlib.truediv.
  pose proof (of_string_normal key) as [Hka Hkt].
  destruct (anchor (pathlib.of_string key) =? "")%string.
  - split; [exact Ha | apply Forall_app; auto].
  - split; assumption.
Qed.

Lemma Forall_removelast {A : Type} (P : A -> Prop) (l : list A) :
  Forall P l -> Forall P (removelast l).
Proof.
  induction 1 as [|x l Hx Hl IH]; [constructor|].
  destruct l; [constructor|]. cbn [removelast]. constructor; assumption.
Qed.

Lemma parent_normal (p : Path) : normal p -> normal (pathlib.parent p).
Proof.
  intros [Ha Ht]. unfold pathlib.parent.
  destruct (tail p) eqn:E; [split; [exact Ha | now rewrite E]|].
  split; [exact Ha|]. cbn [tail]. now apply Forall_removelast.
Qed.

Lemma strip_spec (pre xs rest : list string) :
  pathlib.strip pre xs = Some rest -> xs = pre ++ rest.
Proof.
  revert xs. induction pre as [|a pre IH]; intros xs.
  - now intros [= <-].
  - destruct xs as [|b xs]; [discriminate|]. cbn [pathlib.strip].
    destruct (String.eqb_spec a b) as [->|]; [|discriminate].
    intros H. now rewrite (IH _ H).
Qed.

Lemma relative_to_spec (p other rel : Path) :
  pathlib.relative_to p other = Some rel ->
  anchor rel = "" /\ p = mkPath (anchor other) (tail other ++ tail rel).
Proof.
  unfold pathlib.relative_to.
  destruct (String.eqb_spec (anchor p) (anchor other)) as [Ha|]; [|discriminate].
  destruct (pathlib.strip (tail other) (tail p)) as [rest|] eqn:Hs; [|discriminate].
  intros [= <-]. apply strip_spec in Hs. cbn [anchor tail].
  split; [reflexivity|]. destruct p as [a t]. cbn [anchor tail] in *.
  now subst.
Qed.

Lemma component_head (x : string) :
  component x ->
  exists a x', x = String a x' /\ (a =? pathlib.sep)%char = false.
Proof.
  intros [Hk Hs]. destruct x as [|a x']; [discriminate|].
  exists a, x'. split; [reflexivity|]. simpl in Hs.
  now apply orb_false_iff in Hs.
Qed.

Lemma of_string_join (t : list string) :
  t <> [] -> Forall component t ->
  pathlib.splitroot (Str.join "/" t) = ("", Str.join "/" t)
  /\ filter pathlib.keep (Str.split pathlib.sep (Str.join "/" t)) = t.
Proof.
  intros Hne Ht. split.
  - destruct t as [|x t]; [contradiction|].
    inversion Ht as [|? ? Hx _]; subst.
    destruct (component_head x Hx) as [a [x' [-> Ha]]].
    rewrite join_cons_char. unfold pathlib.splitroot. now rewrite Ha.
  - assert (Hsj : Str.split pathlib.sep (Str.join "/" t) = t).
    { apply (split_join pathlib.sep t Hne).
      eapply Forall_impl; [|exact Ht]. now intros x [_ H]. }
    rewrite Hsj. now apply filter_keep_components.
Qed.

(** [Path(str(p))] is [p] for every path [pathlib] builds. *)
Lemma of_string_str (p : Path) :
  normal p -> pathlib.of_string (pathlib.str p) = p.
Proof.
  intros [Ha Ht]. destruct p as [a t]. cbn [anchor tail] in *.
  destruct t as [|x t].
  - destruct Ha as [->|[->| ->]]; reflexivity.
  - destruct (of_string_join (x :: t)) as [Hroot Hsplit];
      [discriminate | exact Ht |].
    inversion Ht as [|? ? Hx _]; subst.
    destruct (component_head x Hx) as [c [x' [Ex Hc]]].
    pose proof (join_cons_char "/" c x' t) as Hj. rewrite <- Ex in Hj.
    unfold pathlib.of_string, pathlib.str. cbn [anchor tail].
    destruct Ha as [->|[->| ->]].
    + cbn [append]. rewrite Hroot, Hsplit. reflexivity.
    + cbn [append]. cbn [pathlib.splitroot].
      change ("/" =? pathlib.sep)%char with true. cbv iota.
      rewrite Hj, Hc, <- Hj, Hsplit. reflexivity.
    + cbn [append]. cbn [pathlib.splitroot].
      change ("/" =? pathlib.sep)%char with true. cbv iota.
      rewrite Hj, Hc, <- Hj, Hsplit. reflexivity.
Qed.

Lemma extract_ifany_target (fs : filesystem) (root parent : Path)
  (line : string) (body : list string) (target : Path) :
  extract_ifany fs root parent line = Ok (Some (body, target)) ->
  directive root parent line target.
Proof.
  intros H.
  destruct (extract_ifany_cases fs root parent line)
    as [[_ [_ H']]|[target' [Hd [[body' [_ H']]|[_ H']]]]];
    rewrite H' in H; try discriminate.
  injection H as _ <-. exact Hd.
Qed.

(** X10: the paths the expander works with stay as [pathlib] builds them,
    and the path a marker shows, resolved against the project root, is
    the path of the included file. *)
Theorem marker_names_target (fs : filesystem) (root parent : Path)
  (line : string) (body : list string) (target rel : Path) :
  normal root -> normal parent ->
  extract_ifany fs root parent line = Ok (Some (body, target)) ->
  pathlib.relative_to target root = Some rel ->
  normal target
  /\ normal (pathlib.parent target)
  /\ root // pathlib.str rel = target.
Proof.
  intros Hroot Hparent Hex Hrel.
  assert (Ht : normal target).
  { destruct (extract_ifany_target _ _ _ _ _ _ Hex)
      as [[stem [_ ->]]|[stem [_ ->]]]; now apply truediv_normal. }
  split; [exact Ht | split; [now apply parent_normal|]].
  destruct (relative_to_spec _ _ _ Hrel) as [Ha Heq].
  assert (Hn : normal rel).
  { split; [now left|]. destruct Ht as [_ Ht]. rewrite Heq in Ht.
    cbn [tail] in Ht. now apply Forall_app in Ht. }
  unfold pathlib.truediv. rewrite (of_string_str rel Hn), Ha.
  cbn [String.eqb]. now rewrite Heq.
Qed.

(** * The driver *)

Lemma eqb_true (p q : Path) : pathlib.eqb p q = true -> p = q.
Proof.
  unfold pathlib.eqb. destruct p as [a t], q as [b u]. cbn [anchor tail].
  destruct (String.eqb_spec a b) as [->|]; [|discriminate].
  destruct (list_eq_dec string_dec t u) as [->|]; [reflexivity | discriminate].
Qed.

Lemma eqb_refl (p : Path) : pathlib.eqb p p = true.
Proof.
  unfold pathlib.eqb. rewrite String.eqb_refl.
  destruct (list_eq_dec string_dec (tail p) (tail p)); [reflexivity | contradiction].
Qed.

Lemma write_text_spec (fs fs' : filesystem) (f : Path) (text : string) :
  write_text fs f text = Ok fs' ->
  fs' f = Some (File text) /\ forall g, g <> f -> fs' g = fs g.
Proof.
  unfold write_text. destruct (fs f) as [[old|]|]; try discriminate;
    intros [= <-]; (split; [now rewrite eqb_refl|]); intros g Hg;
    (destruct (pathlib.eqb g f) eqn:E; [apply eqb_true in E; contradiction | reflexivity]).
Qed.

Lemma merge_returns (fuel : nat) (entry parent output_fp : Path) (w w' : World) :
  merge fuel entry parent output_fp w = (Returned, w') ->
  exists text out,
    read_text (files w) entry = Ok text
    /\ expand (files w) parent fuel parent (Str.split Str.nl text) 0 = Ok out
    /\ files w' output_fp = Some (File (Str.join (String Str.nl "") out))
    /\ (forall g, g <> output_fp -> files w' g = files w g)
    /\ trace w' = trace w ++ [Written output_fp; Printed "Merged File Written."].
Proof.
  unfold merge. cbv zeta.
  destruct (read_text (files w) entry) as [text|e] eqn:Hr; [|discriminate].
  destruct (expand _ _ _ _ _ _) as [out|e] eqn:He; [|discriminate].
  destruct (write_text _ _ _) as [files'|e] eqn:Hw; [|discriminate].
  intros [= <-]. cbn [print files trace]. apply write_text_spec in Hw.
  destruct Hw as [Hf Hg]. exists text, out. rewrite <- app_assoc.
  repeat split; auto.
Qed.

Lemma merge_aborts (fuel : nat) (entry parent output_fp : Path)
  (w w' : World) (o : outcome) :
  merge fuel entry parent output_fp w = (o, w') -> o <> Returned -> w' = w.
Proof.
  unfold merge.
  destruct (read_text (files w) entry) as [text|e]; [|now intros [= <- <-]].
  destruct (expand _ _ _ _ _ _) as [out|e]; [|now intros [= <- <-]].
  destruct (write_text _ _ _) as [files'|e]; [|now intros [= <- <-]].
  intros [= <- <-] H. contradiction.
Qed.

(** X11: a run that ends before its write (the overwrite declined or
    left unanswered, the entry unreadable, the expansion failed in any
    way) leaves every file as it was and has written nothing: all it did
    was, at most, to prompt and to say that it aborted. *)
Theorem abort_keeps_files (fuel : nat) (parsed : Args) (w w' : World)
  (o : outcome) :
  main fuel parsed w = (o, w') ->
  o <> Returned ->
  (forall f, o <> Uncaught (WriteError f)) ->
  files w' = files w
  /\ exists evs,
       trace w' = trace w ++ evs
       /\ (forall f, ~ In (Written f) evs)
       /\ length evs <= 2.
Proof.
  intros Hm Ho _. split; [exact (main_keeps_files _ _ _ _ _ Hm Ho)|].
  unfold main in Hm. destruct (parse_args parsed) as [[entry parent] output_fp].
  destruct (exists_ (files w) output_fp).
  - unfold input in Hm. destruct (stdin w) as [response|].
    + destruct (negb (response =? "Y")%string).
      * injection Hm as <- <-. cbn [print trace]. rewrite <- app_assoc.
        eexists. split; [reflexivity|]. split; [|simpl; lia].
        intros f [H|[H|[]]]; discriminate.
      * rewrite (merge_aborts _ _ _ _ _ _ _ Hm Ho). cbn [trace].
        eexists. split; [reflexivity|]. split; [|simpl; lia].
        intros f [H|[]]. discriminate.
    + injection Hm as <- <-. cbn [trace].
      eexists. split; [reflexivity|]. split; [|simpl; lia].
      intros f [H|[]]. discriminate.
  - rewrite (merge_aborts _ _ _ _ _ _ _ Hm Ho).
    exists []. rewrite app_nil_r. split; [reflexivity|].
    split; [intros f [] | simpl; lia].
Qed.

(** X12: when a run returns, the entry was read, its lines expanded from
    the entry's directory at depth 0, and the output path holds the
    expansion joined by newlines; an output path that existed was
    confirmed by [Y], and the last things done are the write and the
    message. *)
Theorem main_returns (fuel : nat) (parsed : Args) (w w' : World)
  (entry parent output_fp : Path) :
  parse_args parsed = (entry, parent, output_fp) ->
  main fuel parsed w = (Returned, w') ->
  exists text out evs,
    read_text (files w) entry = Ok text
    /\ expand (files w) parent fuel parent (Str.split Str.nl text) 0 = Ok out
    /\ files w' output_fp = Some (File (Str.join (String Str.nl "") out))
    /\ (exists_ (files w) output_fp = true -> stdin w = Some "Y")
    /\ trace w' = trace w ++ evs
                  ++ [Written output_fp; Printed "Merged File Written."].
Proof.
  intros Hp Hm. unfold main in Hm. rewrite Hp in Hm.
  destruct (exists_ (files w) output_fp).
  - unfold input in Hm.
    destruct (stdin w) as [response|] eqn:Hin; [|discriminate].
    destruct (response =? "Y")%string eqn:E; cbn [negb] in Hm; [|discriminate].
    apply String.eqb_eq in E. subst response.
    destruct (merge_returns _ _ _ _ _ _ Hm)
      as [text [out [Hr [He [Hf [_ Ht]]]]]].
    cbn [files trace] in *.
    exists text, out, [Prompted (overwrite_prompt output_fp)].
    rewrite Ht, <- !app_assoc. repeat split; auto.
  - destruct (merge_returns _ _ _ _ _ _ Hm)
      as [text [out [Hr [He [Hf [_ Ht]]]]]].
    exists text, out, []. rewrite Ht. repeat split; auto. discriminate.
Qed.

(** X13: when a run returns on an entry none of whose lines matches a
    directive, the text put under the output path is the text that was
    read from the entry, character for character. *)
Theorem plain_entry_is_copied (fuel : nat) (parsed : Args) (w w' : World)
  (entry parent output_fp : Path) (text : string) :
  parse_args parsed = (entry, parent, output_fp) ->
  read_text (files w) entry = Ok text ->
  Forall plain (Str.split Str.nl text) ->
  main fuel parsed w = (Returned, w') ->
  files w' output_fp = Some (File text).
Proof.
  intros Hp Hr Hplain Hm.
  assert (Hw : exists out,
             expand (files w) parent fuel parent (Str.split Str.nl text) 0 = Ok out
             /\ files w' output_fp = Some (File (Str.join (String Str.nl "") out))).
  { unfold main in Hm. rewrite Hp in Hm.
    destruct (exists_ (files w) output_fp).
    - unfold input in Hm. destruct (stdin w) as [response|]; [|discriminate].
      destruct (negb (response =? "Y")%string); [discriminate|].
      destruct (merge_returns _ _ _ _ _ _ Hm) as [text0 [out [Hr0 [He [Hf _]]]]].
      cbn [files] in Hr0, He. rewrite Hr in Hr0. injection Hr0 as <-. eauto.
    - destruct (merge_returns _ _ _ _ _ _ Hm) as [text0 [out [Hr0 [He [Hf _]]]]].
      rewrite Hr in Hr0. injection Hr0 as <-. eauto. }
  destruct Hw as [out [He Hf]]. rewrite Hf. do 2 f_equal.
  destruct fuel as [|fuel]; [discriminate|].
  assert (Hid : expand (files w) parent (S fuel) parent (Str.split Str.nl text) 0
                = Ok (Str.split Str.nl text)).
  { clear -Hplain. induction Hplain as [|l ls [Hi Hs] _ IH]; [reflexivity|].
    now rewrite (expand_plain_line _ _ fuel parent l ls 0 Hi Hs), IH. }
  rewrite Hid in He. injection He as <-. apply join_split.
Qed.

(** ** The default output path *)

Lemma last_component (p : Path) :
  normal p -> Str.mem pathlib.sep (pathlib.name p) = false.
Proof.
  intros [_ Ht]. unfold pathlib.name.
  induction Ht as [|x t [_ Hx] Ht IH]; [reflexivity|].
  destruct t; [exact Hx | exact IH].
Qed.

Lemma of_string_merged (fn : string) :
  Str.mem pathlib.sep fn = false ->
  pathlib.of_string ("merged_" ++ fn) = mkPath "" ["merged_" ++ fn]%string.
Proof.
  intros H. unfold pathlib.of_string. cbn [append pathlib.splitroot].
  change ("m" =? pathlib.sep)%char with false. cbv iota.
  rewrite split_whole; [reflexivity|]. simpl. exact H.
Qed.

Lemma length_append (s t : string) :
  String.length (s ++ t) = String.length s + String.length t.
Proof. induction s as [|a s IH]; simpl; [reflexivity | now rewrite IH]. Qed.

Lemma append_neq_self (pre s : string) :
  pre <> "" -> (pre ++ s)%string <> s.
Proof.
  intros Hpre H. apply (f_equal String.length) in H.
  rewrite length_append in H.
  destruct pre; [contradiction | simpl in H; lia].
Qed.

(** X14: without an output name, or with the empty one, the output is
    the file [merged_] + the entry's file name in the entry's directory,
    and is never the entry itself. *)
Theorem default_output_beside_entry (parsed : Args)
  (entry parent output_fp : Path) :
  parse_args parsed = (entry, parent, output_fp) ->
  output_arg parsed = None \/ output_arg parsed = Some "" ->
  pathlib.name output_fp = ("merged_" ++ pathlib.name entry)%string
  /\ pathlib.parent output_fp = pathlib.parent entry
  /\ parent = pathlib.parent entry
  /\ output_fp <> entry.
Proof.
  intros Hp Hout. unfold parse_args in Hp.
  assert (Ho : match output_arg parsed with
               | Some o0 => if (o0 =? "")%string
                            then ("merged_" ++ pathlib.name (pathlib.of_string (entry_arg parsed)))%string
                            else o0
               | None => ("merged_" ++ pathlib.name (pathlib.of_string (entry_arg parsed)))%string
               end
               = ("merged_" ++ pathlib.name (pathlib.of_string (entry_arg parsed)))%string)
    by (destruct Hout as [->| ->]; reflexivity).
  cbv zeta in Hp. rewrite Ho in Hp. injection Hp as <- <- <-.
  pose proof (of_string_normal (entry_arg parsed)) as Hn.
  set (e := pathlib.of_string (entry_arg parsed)) in *.
  pose proof (of_string_merged _ (last_component e Hn)) as Hm.
  set (m := ("merged_" ++ pathlib.name e)%string) in *.
  change (String "m" (String "e" (String "r" (String "g" (String "e"
            (String "d" (String "_" (pathlib.name e)))))))) with m.
  unfold pathlib.truediv. rewrite Hm. cbn [anchor tail String.eqb].
  assert (Hpar : pathlib.parent
                   {| anchor := anchor (pathlib.parent e);
                      tail := tail (pathlib.parent e) ++ [m] |}
                 = pathlib.parent e).
  { unfold pathlib.parent at 1. cbn [anchor tail].
    destruct (tail (pathlib.parent e) ++ [m]) eqn:E.
    - now destruct (tail (pathlib.parent e)).
    - rewrite <- E, removelast_last. now destruct (pathlib.parent e). }
  split; [|split; [exact Hpar | split; [reflexivity|]]].
  - unfold pathlib.name at 1. cbn [tail]. apply last_last.
  - intros Heq. pose proof (f_equal tail Heq) as Ht. cbn [tail] in Ht.
    unfold pathlib.parent in Ht. destruct (tail e) as [|x t] eqn:E.
    + rewrite E in Ht. discriminate.
    + cbn [tail] in Ht.
      destruct (exists_last (l := x :: t)) as [init [fn Hl]]; [discriminate|].
      rewrite Hl, removelast_last in Ht. apply app_inj_tail in Ht.
      destruct Ht as [_ Hfn]. subst m. unfold pathlib.name in Hfn.
      rewrite E, Hl, last_last in Hfn.
      now apply (append_neq_self "merged_" fn).
Qed.

(** * Lines stay lines *)

Lemma mem_append (c : ascii) (s t : string) :
  Str.mem c (s ++ t) = Str.mem c s || Str.mem c t.
Proof.
  induction s as [|a s IH]; simpl; [reflexivity|].
  now rewrite IH, orb_assoc.
Qed.

Lemma split_pieces (c d : ascii) (s : string) :
  Str.mem d s = false -> Forall (fun x => Str.mem d x = false) (Str.split c s).
Proof.
  induction s as [|a s IH]; cbn [Str.split]; intros H.
  - repeat constructor.
  - simpl in H. apply orb_false_iff in H. destruct H as [Ha Hs].
    specialize (IH Hs). destruct (a =? c)%char.
    + constructor; [reflexivity | exact IH].
    + destruct (Str.split c s) as [|l ls];
        [repeat constructor; simpl; now rewrite Ha|].
      inversion IH as [|? ? Hl Hls]; subst.
      constructor; [simpl; now rewrite Ha, Hl | exact Hls].
Qed.

Lemma join_line (sep : string) (ls : list string) :
  is_line sep -> Forall is_line ls -> is_line (Str.join sep ls).
Proof.
  intros Hsep. induction 1 as [|x ls Hx Hls IH]; [reflexivity|].
  destruct ls as [|y ls]; [exact Hx|].
  rewrite join_cons by discriminate. unfold is_line in *.
  now rewrite !mem_append, Hx, Hsep, IH.
Qed.

Lemma times_line (s : string) (n : nat) : is_line s -> is_line (Str.times s n).
Proof.
  intros Hs. induction n as [|n IH]; [reflexivity|].
  cbn [Str.times]. unfold is_line in *. now rewrite mem_append, Hs, IH.
Qed.

Lemma marker_lines (depth : nat) (rel : string) :
  is_line rel -> is_line (opening depth rel) /\ is_line (closing depth rel).
Proof.
  intros Hrel. unfold opening, closing, is_line in *. cbv zeta.
  rewrite !mem_append, Hrel.
  rewrite (times_line ">" (depth + 1) eq_refl).
  rewrite (times_line "<" (depth + 1) eq_refl). split; reflexivity.
Qed.

Lemma splitroot_line (s : string) :
  is_line s -> is_line (snd (pathlib.splitroot s)).
Proof.
  unfold pathlib.splitroot, is_line.
  destruct s as [|c0 [|c1 [|c2 r]]]; cbn [snd];
    repeat match goal with
           | |- context [if ?b then _ else _] => destruct b
           end; cbn [snd]; try tauto;
    simpl; intros H;
    repeat match type of H with
           | _ || _ = false => apply orb_false_iff in H; destruct H as [? H]
           end; simpl; repeat (apply orb_false_iff; split); assumption.
Qed.

Lemma of_string_lines (s : string) :
  is_line s -> Forall is_line (tail (pathlib.of_string s)).
Proof.
  intros H. unfold pathlib.of_string.
  pose proof (splitroot_line s H) as Hr.
  destruct (pathlib.splitroot s) as [a rel]. cbn [tail snd] in *.
  apply Forall_forall. intros x Hx. apply filter_In in Hx. destruct Hx as [Hx _].
  pose proof (split_pieces pathlib.sep Str.nl rel Hr) as Hall.
  rewrite Forall_forall in Hall. now apply Hall.
Qed.

Lemma truediv_lines (p : Path) (key : string) :
  Forall is_line (tail p) -> is_line key -> Forall is_line (tail (p // key)).
Proof.
  intros Hp Hk. unfold pathlib.truediv.
  pose proof (of_string_lines key Hk) as Hq.
  destruct (anchor (pathlib.of_string key) =? "")%string; [|exact Hq].
  cbn [tail]. apply Forall_app. auto.
Qed.

Lemma parent_lines (p : Path) :
  Forall is_line (tail p) -> Forall is_line (tail (pathlib.parent p)).
Proof.
  intros H. unfold pathlib.parent. destruct (tail p) eqn:E; [now rewrite E|].
  cbn [tail]. now apply Forall_removelast.
Qed.

Lemma relative_to_line (p other rel : Path) :
  Forall is_line (tail p) -> pathlib.relative_to p other = Some rel ->
  is_line (pathlib.str rel).
Proof.
  intros Hp Hrel. destruct (relative_to_spec _ _ _ Hrel) as [Ha Heq].
  rewrite Heq in Hp. cbn [tail] in Hp. apply Forall_app in Hp.
  destruct Hp as [_ Hp]. unfold pathlib.str. rewrite Ha.
  destruct (tail rel) eqn:E; [reflexivity|].
  cbn [append]. now apply join_line.
Qed.

Lemma stem_line (cmd line stem : string) :
  re.match_ (re.lit cmd ++ braced) line = Some stem -> is_line stem.
Proof.
  intros H. apply match_lit_inv in H. destruct H as [rest [_ H]].
  apply braced_sound in H. now destruct H as [tl [_ H]].
Qed.

Lemma in_body_lines_Forall (P : string -> Prop) (mode : bool)
  (lines : list string) :
  Forall P lines -> Forall P (in_body_lines mode lines).
Proof.
  intros H. revert mode. induction H as [|l lines Hl _ IH]; intros mode;
    [constructor|].
  cbn [in_body_lines].
  destruct (Str.startswith l "\begin{document}"); [apply IH|].
  destruct (Str.endswith l "\end{document}"); [apply IH|].
  destruct mode; [|apply IH]. constructor; [exact Hl | apply IH].
Qed.

Section LinesStayLines.

Variable fs : filesystem.
Variable root : Path.

Lemma extract_ifany_lines (parent : Path) (line : string)
  (body : list string) (target : Path) :
  Forall is_line (tail root) -> Forall is_line (tail parent) ->
  extract_ifany fs root parent line = Ok (Some (body, target)) ->
  Forall is_line body /\ Forall is_line (tail target).
Proof.
  intros Hroot Hparent.
  assert (Htex : forall stem, is_line stem -> is_line (stem ++ ".tex")).
  { intros stem Hs. unfold is_line in *. now rewrite mem_append, Hs. }
  destruct (re.match_ InputExtractor.pat line) as [stem|] eqn:Hi.
  - rewrite (extract_ifany_input fs root parent _ _ Hi).
    destruct (read_text fs _) as [text|e]; cbn [bind]; [|discriminate].
    intros [= <- <-]. split; [apply split_no_sep|].
    apply truediv_lines; [exact Hroot|].
    apply Htex. exact (stem_line "\input{" _ _ Hi).
  - destruct (re.match_ SubfileExtractor.pat line) as [stem|] eqn:Hs.
    + rewrite (extract_ifany_subfile fs root parent _ _ Hs).
      destruct (read_text fs _) as [text|e]; cbn [bind]; [|discriminate].
      intros [= <- <-]. split; [apply in_body_lines_Forall, split_no_sep|].
      apply truediv_lines; [exact Hparent|].
      apply Htex. exact (stem_line "\subfile{" _ _ Hs).
    + rewrite extract_ifany_none; [discriminate | |].
      * unfold InputExtractor.matches. now rewrite Hi.
      * unfold SubfileExtractor.matches. now rewrite Hs.
Qed.

Lemma expand_loop_lines
  (rec : Path -> list string -> nat -> result (list string))
  (Hroot : Forall is_line (tail root))
  (Hrec : forall p l d out, Forall is_line (tail p) -> Forall is_line l ->
                            rec p l d = Ok out -> Forall is_line out)
  (parent : Path) (depth : nat) (lines out : list string) :
  Forall is_line (tail parent) -> Forall is_line lines ->
  expand_loop fs root rec parent depth [] lines = Ok out ->
  Forall is_line out /\ length lines <= length out.
Proof.
  intros Hparent Hlines. revert out.
  induction Hlines as [|line rest Hline _ IH]; intros out.
  - intros [= <-]. split; [constructor | apply le_n].
  - rewrite expand_loop_cons.
    destruct (extract_ifany fs root parent line) as [[[body target]|]|e] eqn:Hex;
      cbn [bind]; [| |discriminate].
    + destruct (extract_ifany_lines _ _ _ _ Hroot Hparent Hex) as [Hbody Htarget].
      unfold relative_to_root.
      destruct (pathlib.relative_to target root) as [rel|] eqn:Hrel;
        cbn [bind]; [|discriminate].
      destruct (rec _ body (depth + 1)) as [inner|e] eqn:Hin; cbn [bind];
        [|discriminate].
      destruct (expand_loop fs root rec parent depth [] rest) as [tl|e];
        cbn [bind]; [|discriminate].
      intros [= <-]. destruct (IH tl eq_refl) as [Htl Hlen].
      destruct (marker_lines depth _ (relative_to_line _ _ _ Htarget Hrel))
        as [Hop Hcl].
      split.
      * constructor; [exact Hop|]. apply Forall_app. split.
        -- exact (Hrec _ _ _ _ (parent_lines _ Htarget) Hbody Hin).
        -- constructor; assumption.
      * cbn [length]. rewrite length_app. cbn [length]. lia.
    + destruct (expand_loop fs root rec parent depth [] rest) as [tl|e];
        cbn [bind]; [|discriminate].
      intros [= <-]. destruct (IH tl eq_refl) as [Htl Hlen].
      split; [constructor; assumption | cbn [length]; lia].
Qed.

Lemma expand_lines (fuel : nat) (parent : Path) (lines : list string)
  (depth : nat) (out : list string) :
  Forall is_line (tail root) -> Forall is_line (tail parent) ->
  Forall is_line lines ->
  expand fs root fuel parent lines depth = Ok out ->
  Forall is_line out /\ length lines <= length out.
Proof.
  intros Hroot. revert parent lines depth out.
  induction fuel as [|fuel IH]; intros parent lines depth out Hparent Hlines;
    [discriminate|].
  rewrite expand_S. apply expand_loop_lines; try assumption.
  intros p l d o Hp Hl H. exact (proj1 (IH p l d o Hp Hl H)).
Qed.

End LinesStayLines.

(** X15: when no component of the project root and of the current
    directory holds a newline, lines without newlines expand to lines
    without newlines, at least as many, and the expansion joined by
    newlines and split again is the expansion. *)
Theorem expand_keeps_lines (fs : filesystem) (root : Path) (fuel : nat)
  (parent : Path) (lines : list string) (depth : nat) (out : list string) :
  Forall is_line (tail root) -> Forall is_line (tail parent) ->
  Forall is_line lines -> lines <> [] ->
  expand fs root fuel parent lines depth = Ok out ->
  Forall is_line out
  /\ length lines <= length out
  /\ Str.split Str.nl (Str.join (String Str.nl "") out) = out.
Proof.
  intros Hroot Hparent Hlines Hne H.
  destruct (expand_lines fs root fuel parent lines depth out
              Hroot Hparent Hlines H) as [Hout Hlen].
  split; [exact Hout | split; [exact Hlen|]].
  apply split_join; [|exact Hout].
  intros ->. destruct lines; [contradiction | simpl in Hlen; lia].
Qed.


(** * The further properties at work on the small project *)

Lemma expand_deeper_stack_witness :
  expand Project.fs Project.proj (3 + 4) Project.proj ["\input{sub/b}"] 0
  = Ok ["% > sub/b.tex > : texpack"; "b1"; "% >> sub/c.tex >> : texpack";
        "c1"; "% << sub/c.tex << : texpack"; "b2"; "% < sub/b.tex < : texpack"].
Proof.
  apply (expand_deeper_stack Project.fs Project.proj 3 4 Project.proj
           ["\input{sub/b}"] 0);
    [vm_compute; reflexivity | discriminate].
Defined.

Lemma self_inclusion_exhausts_stack_witness :
  expand Project.fs Project.proj 1000 (pathlib.of_string "/proj/sub")
    ["\input{loop}"] 5
  = Raise RecursionError.
Proof.
  apply (self_inclusion_exhausts_stack Project.fs Project.proj "loop"
           "\input{loop}" [] []);
    [reflexivity | reflexivity | reflexivity | reflexivity | constructor].
Defined.

Lemma expand_idempotent_witness :
  Forall plain
    ["intro"; "% > sub/b.tex > : texpack"; "b1"; "% >> sub/c.tex >> : texpack";
     "c1"; "% << sub/c.tex << : texpack"; "b2"; "% < sub/b.tex < : texpack";
     "outro"]
  /\ forall fs' root' fuel' parent' depth',
       expand fs' root' (S fuel') parent'
         ["intro"; "% > sub/b.tex > : texpack"; "b1";
          "% >> sub/c.tex >> : texpack"; "c1"; "% << sub/c.tex << : texpack";
          "b2"; "% < sub/b.tex < : texpack"; "outro"] depth'
       = Ok ["intro"; "% > sub/b.tex > : texpack"; "b1";
             "% >> sub/c.tex >> : texpack"; "c1"; "% << sub/c.tex << : texpack";
             "b2"; "% < sub/b.tex < : texpack"; "outro"].
Proof.
  apply (expand_idempotent Project.fs Project.proj 3 Project.proj
           ["intro"; "\input{sub/b}"; "outro"] 0).
  vm_compute. reflexivity.
Defined.

Lemma expand_failures_witness :
  (exists t, ReadError (pathlib.of_string "/proj/nothing.tex") = ReadError t)
  \/ (exists t, ReadError (pathlib.of_string "/proj/nothing.tex")
                = ValueError t Project.proj)
  \/ ReadError (pathlib.of_string "/proj/nothing.tex") = RecursionError.
Proof.
  apply (expand_failures Project.fs Project.proj 3 Project.proj
           ["intro"; "\input{nothing}"] 0).
  vm_compute. reflexivity.
Defined.

Lemma stem_is_longest_witness :
  String.length "a" <= String.length "a}{b"
  /\ exists rest', ("a" ++ "}" ++ "{b}")%string = ("a}{b" ++ "}" ++ rest')%string.
Proof.
  apply (stem_is_longest "\input{a}{b}" "a}{b" "a" "{b}");
    [left; reflexivity | left; reflexivity | reflexivity].
Defined.

Lemma trailing_text_dropped_witness :
  expand Project.fs Project.proj 3 Project.proj ["\input{sub/b} % chapter"] 0
  = expand Project.fs Project.proj 3 Project.proj ["\input{sub/b}"] 0
  /\ expand Project.fs Project.proj 3 Project.proj ["\subfile{sub/b} % chapter"] 0
     = expand Project.fs Project.proj 3 Project.proj ["\subfile{sub/b}"] 0.
Proof.
  apply (trailing_text_dropped Project.fs Project.proj 3 Project.proj
           "sub/b" " % chapter" 0); reflexivity.
Defined.

Lemma subfile_extract_between_witness :
  SubfileExtractor.extract Project.fs (pathlib.of_string "/proj/sub")
    Project.proj "\subfile{c}"
  = Ok (["c1"], pathlib.of_string "/proj/sub" // "c.tex").
Proof.
  apply (subfile_extract_between Project.fs (pathlib.of_string "/proj/sub")
           Project.proj "\subfile{c}" "c"
           (Project.text_of ["pre"; "\begin{document}"; "c1";
                             "\end{document}"; "post"])
           "\begin{document}" "\end{document}" ["pre"] ["c1"] ["post"]);
    try reflexivity; repeat constructor.
Defined.

Lemma subfile_body_has_no_marker_witness :
  Forall (fun l => Str.startswith l "\begin{document}" = false
                   /\ Str.endswith l "\end{document}" = false) ["c1"].
Proof.
  apply (subfile_body_has_no_marker Project.fs (pathlib.of_string "/proj/sub")
           Project.proj "\subfile{c}" ["c1"]
           (pathlib.of_string "/proj/sub/c.tex")).
  vm_compute. reflexivity.
Defined.

Lemma marker_names_target_witness :
  normal (pathlib.of_string "/proj/sub/c.tex")
  /\ normal (pathlib.parent (pathlib.of_string "/proj/sub/c.tex"))
  /\ Project.proj // pathlib.str (pathlib.of_string "sub/c.tex")
     = pathlib.of_string "/proj/sub/c.tex".
Proof.
  apply (marker_names_target Project.fs Project.proj
           (pathlib.of_string "/proj/sub") "\subfile{c}" ["c1"]).
  - split; [right; left; reflexivity | repeat constructor].
  - split; [right; left; reflexivity | repeat constructor].
  - vm_compute. reflexivity.
  - reflexivity.
Defined.

Lemma abort_keeps_files_witness :
  files (snd (main 3 {| entry_arg := "/proj/loop.tex"; output_arg := None |}
                (Project.world None)))
  = files (Project.world None)
  /\ exists evs,
       trace (snd (main 3 {| entry_arg := "/proj/loop.tex"; output_arg := None |}
                     (Project.world None)))
       = trace (Project.world None) ++ evs
       /\ (forall f, ~ In (Written f) evs)
       /\ length evs <= 2.
Proof.
  apply (abort_keeps_files 3
           {| entry_arg := "/proj/loop.tex"; output_arg := None |}
           (Project.world None) _ (Uncaught RecursionError));
    [vm_compute; reflexivity | discriminate | discriminate].
Defined.

Lemma main_returns_witness :
  exists text out evs,
    read_text (files (Project.world (Some "Y")))
      (pathlib.of_string "/proj/main.tex") = Ok text
    /\ expand (files (Project.world (Some "Y"))) Project.proj 3 Project.proj
         (Str.split Str.nl text) 0 = Ok out
    /\ files (snd (main 3 {| entry_arg := "/proj/main.tex"; output_arg := None |}
                     (Project.world (Some "Y"))))
         (pathlib.of_string "/proj/merged_main.tex")
       = Some (File (Str.join (String Str.nl "") out))
    /\ (exists_ (files (Project.world (Some "Y")))
          (pathlib.of_string "/proj/merged_main.tex") = true ->
        stdin (Project.world (Some "Y")) = Some "Y")
    /\ trace (snd (main 3 {| entry_arg := "/proj/main.tex"; output_arg := None |}
                     (Project.world (Some "Y"))))
       = trace (Project.world (Some "Y")) ++ evs
         ++ [Written (pathlib.of_string "/proj/merged_main.tex");
             Printed "Merged File Written."].
Proof.
  apply (main_returns 3 {| entry_arg := "/proj/main.tex"; output_arg := None |}
           (Project.world (Some "Y")) _
           (pathlib.of_string "/proj/main.tex") Project.proj);
    vm_compute; reflexivity.
Defined.

Lemma plain_entry_is_copied_witness :
  files (snd (main 1 {| entry_arg := "/proj/sub/c.tex";
                        output_arg := Some "copy.tex" |} (Project.world None)))
    (pathlib.of_string "/proj/sub/copy.tex")
  = Some (File (Project.text_of ["pre"; "\begin{document}"; "c1";
                                 "\end{document}"; "post"])).
Proof.
  apply (plain_entry_is_copied 1
           {| entry_arg := "/proj/sub/c.tex"; output_arg := Some "copy.tex" |}
           (Project.world None) _
           (pathlib.of_string "/proj/sub/c.tex") (pathlib.of_string "/proj/sub"));
    [reflexivity | reflexivity | repeat constructor | vm_compute; reflexivity].
Defined.

Lemma default_output_beside_entry_witness :
  pathlib.name (pathlib.of_string "/proj/merged_main.tex")
  = ("merged_" ++ pathlib.name (pathlib.of_string "/proj/main.tex"))%string
  /\ pathlib.parent (pathlib.of_string "/proj/merged_main.tex")
     = pathlib.parent (pathlib.of_string "/proj/main.tex")
  /\ Project.proj = pathlib.parent (pathlib.of_string "/proj/main.tex")
  /\ pathlib.of_string "/proj/merged_main.tex" <> pathlib.of_string "/proj/main.tex".
Proof.
  apply (default_output_beside_entry
           {| entry_arg := "/proj/main.tex"; output_arg := Some "" |});
    [reflexivity | right; reflexivity].
Defined.

Lemma expand_keeps_lines_witness :
  Forall is_line
    ["% > sub/b.tex > : texpack"; "b1"; "% >> sub/c.tex >> : texpack";
     "c1"; "% << sub/c.tex << : texpack"; "b2"; "% < sub/b.tex < : texpack"]
  /\ length ["\input{sub/b}"]
     <= length ["% > sub/b.tex > : texpack"; "b1"; "% >> sub/c.tex >> : texpack";
                "c1"; "% << sub/c.tex << : texpack"; "b2";
                "% < sub/b.tex < : texpack"]
  /\ Str.split Str.nl
       (Str.join (String Str.nl "")
          ["% > sub/b.tex > : texpack"; "b1"; "% >> sub/c.tex >> : texpack";
           "c1"; "% << sub/c.tex << : texpack"; "b2";
           "% < sub/b.tex < : texpack"])
     = ["% > sub/b.tex > : texpack"; "b1"; "% >> sub/c.tex >> : texpack";
        "c1"; "% << sub/c.tex << : texpack"; "b2"; "% < sub/b.tex < : texpack"].
Proof.
  apply (expand_keeps_lines Project.fs Project.proj 3 Project.proj
           ["\input{sub/b}"] 0).
  - repeat constructor.
  - repeat constructor.
  - repeat constructor.
  - discriminate.
  - vm_compute. reflexivity.
Defined.

